(** * opencode-multi-tenant: session isolation, token checks and prompt relay

    A shallow embedding of the TypeScript sources

      - [src/session/session-manager.ts]  (SessionManager, InMemorySessionStore,
        SessionDurableObject, the Worker routes and its auth middleware),
      - [src/opencode/opencode-client.ts] (OpenCodeService, second revision),
      - [src/auth/clerk.ts]               (verifyClerkToken),
      - [src/worker-hono.ts]              (the older auth middleware),

    followed by the properties of the specification proved about them.

    Conventions of the embedding.
      - A JS [Map] is an association list in insertion order ([JsMap]):
        [Array.from(map.values())] observes that order.
      - JS numbers that count or hold epoch times are integers here ([N] for
        the counters, [Z] for [Date.now()]); every [Date.now()] and
        [Math.random()] read is an explicit argument.
      - A call that may throw returns a [result]; a method of a stateful
        object is a function in the state monad [M].
      - [null] and [undefined] results are [None]. *)

From stdpp Require Import base strings list pretty sorting.
From Stdlib Require Import ZArith Lia Ascii.

Local Open Scope string_scope.
Local Open Scope list_scope.

(* ------------------------------------------------------------------ *)
(** * Part I: the embedding                                            *)
(* ------------------------------------------------------------------ *)

(** ** Thrown values and the state-and-exception monad *)

(** What a [catch (error)] clause can observe: either an [Error] object with
    its [message], or some other thrown value. *)
Inductive thrown : Type :=
| JsError (message : string)
| NonError.


Inductive result (A : Type) : Type :=
| Ok (a : A)
| Throw (e : thrown).
Arguments Ok {A} a.
Arguments Throw {A} e.

Definition M (S A : Type) : Type := S -> result A * S.

Definition ret {S A} (a : A) : M S A := fun s => (Ok a, s).
Definition throw {S A} (e : thrown) : M S A := fun s => (Throw e, s).
Definition bind {S A B} (m : M S A) (k : A -> M S B) : M S B :=
  fun s => match m s with
           | (Ok a, s') => k a s'
           | (Throw e, s') => (Throw e, s')
           end.

Notation "'let!' x ':=' m 'in' k" := (bind m (fun x => k))
  (at level 10, x pattern, m at level 100, k at level 200, only parsing).
Notation "m ';;!' k" := (bind m (fun _ => k))
  (at level 100, k at level 200, only parsing).

(** ** Shared data *)

(** [interface Session { id; userId; createdAt }]. *)
Record Session : Type := mkSession {
  id : string;
  userId : string;
  createdAt : Z;
}.

(** [{ role: string; content: string }]. *)
Record Message : Type := mkMessage {
  role : string;
  content : string;
}.

(** ** JS [Map<string, V>] *)

Module JsMap.
Section JsMap.
Context {V : Type}.

Definition t : Type := list (string * V).

Definition empty : t := [].

(** [map.get(k)] *)
Fixpoint get (k : string) (m : t) : option V :=
match m with
| [] => None
| (k', v) :: m' => if String.eqb k' k then Some v else get k m'
end.

(** [map.set(k, v)]: an existing key keeps its position, a new key goes
  last. *)
Fixpoint set (k : string) (v : V) (m : t) : t :=
match m with
| [] => [(k, v)]
| (k', v') :: m' =>
    if String.eqb k' k then (k, v) :: m' else (k', v') :: set k v m'
end.

(** [map.delete(k)] *)
Fixpoint delete (k : string) (m : t) : t :=
match m with
| [] => []
| (k', v') :: m' =>
    if String.eqb k' k then delete k m' else (k', v') :: delete k m'
end.

(** [Array.from(map.values())] *)
Definition values (m : t) : list V := map snd m.
End JsMap.
Arguments t : clear implicits.
End JsMap.

(** ** [class SessionManager] (session-manager.ts, first revision) *)

(** What a call evaluates to when the callee's declared result is [void] or a
    [boolean]. *)
Inductive jsval : Type :=
| VUndefined
| VBool (b : bool).

Module SessionManager.

Record state : Type := mkState {
  sessions : JsMap.t Session;
  idCounter : N;
}.

Definition init : state := mkState JsMap.empty 0.

(** [`session-${this.idCounter++}`] *)
Definition session_id (c : N) : string := "session-" +:+ pretty c.

(** [createSession(userId)]; [user] is the [userId] argument and [now] the
    value of [Date.now()]. *)
Definition createSession (now : Z) (user : string) (st : state)
  : Session * state :=
  let session := mkSession (session_id (idCounter st)) user now in
  (session,
   mkState (JsMap.set (id session) session (sessions st)) (idCounter st + 1)).

(** [getSession(sessionId, userId)] *)
Definition getSession (sessionId user : string) (st : state)
  : option Session :=
  match JsMap.get sessionId (sessions st) with
  | Some session =>
      if String.eqb (userId session) user
      then Some session else None
  | None => None
  end.

(** [deleteSession(sessionId, userId): void] *)
Definition deleteSession (sessionId user : string) (st : state)
  : jsval * state :=
  match JsMap.get sessionId (sessions st) with
  | Some session =>
      if String.eqb (userId session) user
      then (VUndefined,
            mkState (JsMap.delete sessionId (sessions st)) (idCounter st))
      else (VUndefined, st)
  | None => (VUndefined, st)
  end.

(** The calls that change the manager. *)
Inductive op : Type :=
| OpCreate (now : Z) (user : string)
| OpDelete (sessionId user : string).

Definition step (o : op) (st : state) : state :=
  match o with
  | OpCreate now u => snd (createSession now u st)
  | OpDelete sid u => snd (deleteSession sid u st)
  end.

Definition run (ops : list op) (st : state) : state :=
  fold_left (fun s o => step o s) ops st.
End SessionManager.

(** ** [class InMemorySessionStore] (session-manager.ts, second revision) *)

Module InMemorySessionStore.

Record state : Type := mkState {
  sessions : JsMap.t Session;
  messages : JsMap.t (list Message);
  sessionCounter : N;
}.

Definition init : state := mkState JsMap.empty JsMap.empty 0.

(** [`opencode-${Date.now()}-${this.sessionCounter++}`] *)
Definition session_id (now : Z) (c : N) : string :=
  "opencode-" +:+ pretty now +:+ "-" +:+ pretty c.

(** The two [Date.now()] reads of [createSession], in evaluation order:
    the one inside the id, then the one of [createdAt]. *)
Record clock : Type := mkClock { now_id : Z; now_createdAt : Z }.

Definition createSession (clk : clock) (user : string) (st : state)
  : Session * state :=
  let session :=
    mkSession (session_id (now_id clk) (sessionCounter st)) user
              (now_createdAt clk) in
  (session,
   mkState (JsMap.set (id session) session (sessions st))
           (JsMap.set (id session) [] (messages st))
           (sessionCounter st + 1)).

Definition getSession (sessionId user : string) (st : state)
  : option Session :=
  match JsMap.get sessionId (sessions st) with
  | Some session =>
      if String.eqb (userId session) user
      then Some session else None
  | None => None
  end.

Definition deleteSession (sessionId user : string) (st : state)
  : bool * state :=
  match JsMap.get sessionId (sessions st) with
  | Some session =>
      if String.eqb (userId session) user
      then (true,
            mkState (JsMap.delete sessionId (sessions st))
                    (JsMap.delete sessionId (messages st))
                    (sessionCounter st))
      else (false, st)
  | None => (false, st)
  end.

(** [Array.from(this.sessions.values()).filter(s => s.userId === userId)] *)
Definition listUserSessions (user : string) (st : state) : list Session :=
  List.filter (fun s => String.eqb (userId s) user)
              (JsMap.values (sessions st)).

(** [this.messages.get(sessionId) || []] *)
Definition stored_history (sessionId : string) (st : state) : list Message :=
  default [] (JsMap.get sessionId (messages st)).

Definition addMessage (sessionId user : string) (message : Message)
  : M state unit :=
  fun st =>
    match getSession sessionId user st with
    | None => (Throw (JsError "Session not found or access denied"), st)
    | Some _ =>
        (Ok tt,
         mkState (sessions st)
                 (JsMap.set sessionId (stored_history sessionId st ++ [message])%list
                            (messages st))
                 (sessionCounter st))
    end.

Definition getConversationHistory (sessionId user : string) (st : state)
  : list Message :=
  match getSession sessionId user st with
  | None => []
  | Some _ => stored_history sessionId st
  end.

(** The calls that change the store, for talking about the states a store
    can be driven through. *)
Inductive op : Type :=
| OpCreate (clk : clock) (user : string)
| OpDelete (sessionId user : string)
| OpAddMessage (sessionId user : string) (message : Message).

Definition step (o : op) (st : state) : state :=
  match o with
  | OpCreate clk u => snd (createSession clk u st)
  | OpDelete sid u => snd (deleteSession sid u st)
  | OpAddMessage sid u m => snd (addMessage sid u m st)
  end.

Definition run (ops : list op) (st : state) : state :=
  fold_left (fun s o => step o s) ops st.
End InMemorySessionStore.

(** ** SQL [ORDER BY] *)

(** The storage engine is not part of the sources.  [order_by le] is the model
    of [ORDER BY] used for the two queries that sort: rows come back sorted by
    [le], and rows that compare equal keep the order of the table scan
    (insertion order).  SQL leaves the order of such ties to the engine; the
    properties below that rely on tie order say so. *)
Section OrderBy.
Context {A : Type} (le : A -> A -> bool).

Fixpoint insert_row (x : A) (l : list A) : list A :=
  match l with
  | [] => [x]
  | y :: l' => if le x y then x :: y :: l' else y :: insert_row x l'
  end.

Fixpoint order_by (l : list A) : list A :=
  match l with
  | [] => []
  | x :: l' => insert_row x (order_by l')
  end.
End OrderBy.

(** ** [class SessionDurableObject] (session-manager.ts, second revision) *)

Module SessionDurableObject.

(** [sessions (id TEXT PRIMARY KEY, user_id, created_at)] *)
Record session_row : Type := mkSessionRow {
  row_id : string;
  user_id : string;
  created_at : Z;
}.

(** [messages (id INTEGER PRIMARY KEY AUTOINCREMENT, session_id REFERENCES
    sessions(id) ON DELETE CASCADE, role, content, created_at)] *)
Record message_row : Type := mkMessageRow {
  message_id : N;
  session_id : string;
  message_role : string;
  message_content : string;
  message_created_at : Z;
}.

(** The database after [initDB]: both tables in insertion order and the
    AUTOINCREMENT sequence of [messages]. *)
Record state : Type := mkState {
  sessions : list session_row;
  messages : list message_row;
  message_seq : N;
}.

Definition init : state := mkState [] [] 1.

Definition to_session (row : session_row) : Session :=
  mkSession (row_id row) (user_id row) (created_at row).

(** [Date.now()], [Math.random().toString(36).substring(2, 11)] and
    [Date.now()] again, as [createSession] reads them. *)
Record entropy : Type := mkEntropy {
  now_id : Z;
  random_suffix : string;
  now_createdAt : Z;
}.

Definition session_id_of (e : entropy) : string :=
  "opencode-" +:+ pretty (now_id e) +:+ "-" +:+ random_suffix e.

(** [INSERT INTO sessions ...]: the primary key rejects a second row with
    the same id. *)
Definition insert_session (row : session_row) : M state unit :=
  fun st =>
    if existsb (fun r => String.eqb (row_id r) (row_id row)) (sessions st)
    then (Throw (JsError "UNIQUE constraint failed: sessions.id"), st)
    else (Ok tt,
          mkState (sessions st ++ [row])%list (messages st) (message_seq st)).

Definition createSession (e : entropy) (user : string) : M state Session :=
  let sessionId := session_id_of e in
  insert_session (mkSessionRow sessionId user (now_createdAt e)) ;;!
  ret (mkSession sessionId user (now_createdAt e)).

(** [SELECT ... FROM sessions WHERE id = ? AND user_id = ?], then
    [results[0]]. *)
Definition getSession (sessionId user : string) (st : state)
  : option Session :=
  match List.filter (fun r => String.eqb (row_id r) sessionId
                              && String.eqb (user_id r) user)
                    (sessions st) with
  | [] => None
  | row :: _ => Some (to_session row)
  end.

(** [DELETE FROM sessions WHERE id = ?], with the cascade of the foreign
    key of [messages]. *)
Definition delete_session_row (sessionId : string) (st : state) : state :=
  mkState
    (List.filter (fun r => negb (String.eqb (row_id r) sessionId))
                 (sessions st))
    (List.filter (fun m => negb (String.eqb (session_id m) sessionId))
                 (messages st))
    (message_seq st).

Definition deleteSession (sessionId user : string) (st : state)
  : bool * state :=
  match getSession sessionId user st with
  | None => (false, st)
  | Some _ => (true, delete_session_row sessionId st)
  end.

(** [SELECT ... WHERE user_id = ? ORDER BY created_at DESC] *)
Definition listUserSessions (user : string) (st : state) : list Session :=
  map to_session
    (order_by (fun a b => (created_at b <=? created_at a)%Z)
       (List.filter (fun r => String.eqb (user_id r) user) (sessions st))).

(** [addMessage]; [now] is the [Date.now()] stored in [created_at]. *)
Definition addMessage (now : Z) (sessionId user : string) (message : Message)
  : M state unit :=
  fun st =>
    match getSession sessionId user st with
    | None => (Throw (JsError "Session not found or access denied"), st)
    | Some _ =>
        (Ok tt,
         mkState (sessions st)
                 (messages st ++
                  [mkMessageRow (message_seq st) sessionId (role message)
                                (content message) now])%list
                 (message_seq st + 1))
    end.

(** [SELECT role, content FROM messages WHERE session_id = ?
    ORDER BY created_at ASC] *)
Definition select_history (sessionId : string) (st : state)
  : list message_row :=
  order_by (fun a b => (message_created_at a <=? message_created_at b)%Z)
    (List.filter (fun m => String.eqb (session_id m) sessionId)
                 (messages st)).

Definition getConversationHistory (sessionId user : string) (st : state)
  : list Message :=
  match getSession sessionId user st with
  | None => []
  | Some _ =>
      map (fun row => mkMessage (message_role row) (message_content row))
          (select_history sessionId st)
  end.
End SessionDurableObject.

(** ** The store interface [SessionDurableObjectState] *)

(** The six methods [OpenCodeService] calls on its store.  [S] is the state of
    the store object and [E] what [createSession] reads from its environment
    (clock, randomness). *)
Record SessionStore (S E : Type) : Type := mkStore {
  store_createSession : E -> string -> M S Session;
  store_getSession : string -> string -> M S (option Session);
  store_deleteSession : string -> string -> M S bool;
  store_listUserSessions : string -> M S (list Session);
  store_addMessage : string -> string -> Message -> M S unit;
  store_getConversationHistory : string -> string -> M S (list Message);
}.
Arguments store_createSession {S E}.
Arguments store_getSession {S E}.
Arguments store_deleteSession {S E}.
Arguments store_listUserSessions {S E}.
Arguments store_addMessage {S E}.
Arguments store_getConversationHistory {S E}.

(** A method that only reads the store. *)
Definition reading {S A} (f : S -> A) : M S A := fun st => (Ok (f st), st).
(** A method that cannot throw. *)
Definition total {S A} (f : S -> A * S) : M S A :=
  fun st => let '(a, st') := f st in (Ok a, st').

(** [new InMemorySessionStore()] behind that interface. *)
Definition inMemoryStore
  : SessionStore InMemorySessionStore.state InMemorySessionStore.clock :=
  {| store_createSession clk user :=
       total (InMemorySessionStore.createSession clk user);
     store_getSession sessionId user :=
       reading (InMemorySessionStore.getSession sessionId user);
     store_deleteSession sessionId user :=
       total (InMemorySessionStore.deleteSession sessionId user);
     store_listUserSessions user :=
       reading (InMemorySessionStore.listUserSessions user);
     store_addMessage := InMemorySessionStore.addMessage;
     store_getConversationHistory sessionId user :=
       reading (InMemorySessionStore.getConversationHistory sessionId user) |}.

(** ** [class OpenCodeService] (opencode-client.ts, second revision) *)

Module OpenCodeService.

(** *** The completion endpoint, as [fetch] shows it to the caller *)

(** The parsed response body.  The code guards [data.choices] and its
    length and then reads [choices[0].message.content] unguarded: a missing
    [message] raises a [TypeError]; [content] has the declared type. *)
Record api_message : Type := mkApiMessage { api_content : string }.
Record api_choice : Type := mkApiChoice { api_message_of : option api_message }.
Record api_data : Type := mkApiData { choices : option (list api_choice) }.

Record response : Type := mkResponse {
  ok : bool;
  status : Z;
  statusText : string;
  body_text : result string;     (* [await response.text()] *)
  body_json : result api_data;   (* [await response.json()] *)
}.

Inductive fetch_outcome : Type :=
| FetchRejects (e : thrown)
| FetchResolves (r : response).

(** [JSON.stringify(requestBody)] before serialisation. *)
Record request_body : Type := mkRequestBody {
  model : string;
  body_messages : list Message;
  stream : bool;
}.

Record request : Type := mkRequest {
  url : string;
  method : string;
  authorization : string;
  body : request_body;
}.

(** [interface PromptResponse { text: string }] *)
Record PromptResponse : Type := mkPromptResponse { text : string }.

(** The service object: its configuration, its store, and the requests it
    has sent so far. *)
Record state (S : Type) : Type := mkState {
  apiKey : string;
  sessionDurableObject : S;
  sent : list request;
}.
Arguments mkState {S}.
Arguments apiKey {S}.
Arguments sessionDurableObject {S}.
Arguments sent {S}.

Definition apiEndpoint : string :=
  "https://opencode.ai/zen/v1/chat/completions".
Definition defaultModel : string := "glm-4.7-free".

(** The message of the [TypeError] of reading [.content] of [undefined]
    (V8's wording). *)
Definition type_error_content : string :=
  "Cannot read properties of undefined (reading 'content')".

(** The [catch] block of [callOpenCodeAPI]. *)
Definition fallback (e : thrown) : string :=
  match e with
  | JsError message => "[エラー] API呼び出しに失敗しました: " +:+ message
  | NonError => "[エラー] 不明なエラーが発生しました"
  end.

(** The body of the [try] block after [fetch] has settled. *)
Definition read_response (o : fetch_outcome) : result string :=
  match o with
  | FetchRejects e => Throw e
  | FetchResolves r =>
      if negb (ok r) then
        match body_text r with
        | Throw e => Throw e
        | Ok errorText =>
            Throw (JsError ("OpenCode API error: " +:+ pretty (status r)
                            +:+ " " +:+ statusText r +:+ " - " +:+ errorText))
        end
      else
        match body_json r with
        | Throw e => Throw e
        | Ok data =>
            match choices data with
            | Some (c :: _) =>
                match api_message_of c with
                | Some m => Ok (api_content m)
                | None => Throw (JsError type_error_content)
                end
            | _ => Throw (JsError "Invalid response format from OpenCode API")
            end
        end
  end.

Section Service.
Context {S E : Type}.
Variable store : SessionStore S E.
(** The outside world: what [fetch] does with a request. *)
Variable upstream : request -> fetch_outcome.

(** Run a store method on the store field of the service. *)
Definition on_store {A} (m : M S A) : M (state S) A :=
  fun sv =>
    let '(r, st') := m (sessionDurableObject sv) in
    (r, mkState (apiKey sv) st' (sent sv)).

Definition callOpenCodeAPI (messages : list Message) : M (state S) string :=
  fun sv =>
    let requestBody :=
      mkRequestBody defaultModel
        (map (fun msg => mkMessage (role msg) (content msg)) messages)
        false in
    let req :=
      mkRequest apiEndpoint "POST" ("Bearer " +:+ apiKey sv) requestBody in
    let sv' := mkState (apiKey sv) (sessionDurableObject sv)
                       (sent sv ++ [req])%list in
    match read_response (upstream req) with
    | Ok reply => (Ok reply, sv')
    | Throw e => (Ok (fallback e), sv')
    end.

Definition createSession (e : E) (user : string) : M (state S) Session :=
  on_store (store_createSession store e user).

Definition sendPrompt (sessionId user prompt : string)
  : M (state S) PromptResponse :=
  let! session := on_store (store_getSession store sessionId user) in
  match session with
  | None => throw (JsError "Session not found or access denied")
  | Some _ =>
      on_store (store_addMessage store sessionId user
                  (mkMessage "user" prompt)) ;;!
      let! conversationHistory :=
        on_store (store_getConversationHistory store sessionId user) in
      let! response := callOpenCodeAPI conversationHistory in
      on_store (store_addMessage store sessionId user
                  (mkMessage "assistant" response)) ;;!
      ret (mkPromptResponse response)
  end.

(** [await store.getSession(...) || undefined] *)
Definition getSession (sessionId user : string)
  : M (state S) (option Session) :=
  on_store (store_getSession store sessionId user).

Definition deleteSession (sessionId user : string) : M (state S) bool :=
  on_store (store_deleteSession store sessionId user).

Definition listUserSessions (user : string) : M (state S) (list Session) :=
  on_store (store_listUserSessions store user).

Definition getConversationHistory (sessionId user : string)
  : M (state S) (list Message) :=
  on_store (store_getConversationHistory store sessionId user).
End Service.
End OpenCodeService.

(** ** String helpers of the JS runtime *)

(** Strings are byte strings here and UTF-16 in JS.  The helpers are only
    applied with ASCII separators, prefixes and needles, where the two views
    agree. *)
Module Js.

(** [!!s] for a string *)
Definition truthy (s : string) : bool :=
  match s with "" => false | _ => true end.

(** [!!x] for an optional string *)
Definition truthy_opt (x : option string) : bool :=
  match x with Some s => truthy s | None => false end.

(** [s.startsWith(p)] *)
Definition startsWith (s p : string) : bool := String.prefix p s.

(** [s.substring(n)] *)
Fixpoint substring_from (n : nat) (s : string) : string :=
  match n, s with
  | O, _ => s
  | S n', String _ s' => substring_from n' s'
  | S _, "" => ""
  end.

(** [s.split(sep)] for a one-character separator *)
Fixpoint split (sep : ascii) (s : string) : list string :=
  match s with
  | "" => [""]
  | String c s' =>
      if Ascii.eqb c sep then "" :: split sep s'
      else match split sep s' with
           | [] => [String c ""]
           | x :: xs => String c x :: xs
           end
  end.

(** [s.includes(needle)] *)
Fixpoint includes (s needle : string) : bool :=
  String.prefix needle s
  || match s with
     | "" => false
     | String _ s' => includes s' needle
     end.
End Js.

(** ** Token checks: [verifyClerkToken] and the two auth middlewares *)

Module Clerk.

(** The decoded payload, [interface ClerkJwtPayload]; a field that the
    JSON object does not have is [None].  ([iat] is never read.) *)
Record ClerkJwtPayload : Type := mkPayload {
  sub : option string;
  iss : option string;
  exp : option Z;
}.

(** [payload.exp < now]: false when [exp] is [undefined]. *)
Definition exp_before (payload : ClerkJwtPayload) (now : Z) : bool :=
  match exp payload with
  | Some e => (e <? now)%Z
  | None => false
  end.

(** [payload.exp && payload.exp < now]: [undefined] and [0] are falsy. *)
Definition exp_truthy_and_before (payload : ClerkJwtPayload) (now : Z)
  : bool :=
  match exp payload with
  | Some e => negb (e =? 0)%Z && (e <? now)%Z
  | None => false
  end.

(** [Math.floor(Date.now() / 1000)] *)
Definition seconds (date_now : Z) : Z := (date_now / 1000)%Z.

(** What a middleware does with a request. *)
Inductive auth_outcome : Type :=
| Unauthorized (debug : string) (issuer : option string)  (* 401 *)
| Next (userId : string).                                 (* [c.set]; [next()] *)

Section Verifier.
(** Base64url decoding and [JSON.parse] of the middle segment are runtime
    built-ins: [decode segment] is the parsed payload, or what the
    decoding threw.  [clerk.ts] and [worker-hono.ts] decode with [atob],
    the Worker of [session-manager.ts] with [Buffer.from]. *)
Variable decode : string -> result ClerkJwtPayload.
Variable js_String : thrown -> string.

(** [verifyClerkToken(authHeader)] of [clerk.ts]; [date_now] is
    [Date.now()]. *)
Definition verifyClerkToken (authHeader : string) (date_now : Z)
  : option string :=
  if negb (Js.truthy authHeader)
     || negb (Js.startsWith authHeader "Bearer ")
  then None
  else
    let token := Js.substring_from 7 authHeader in
    let parts := Js.split "."%char token in
    if negb (Nat.eqb (length parts) 3) then None
    else
      match decode (nth 1 parts "") with
      | Throw _ => None
      | Ok payload =>
          let now := seconds date_now in
          if exp_before payload now then None
          else
            match iss payload with
            | None => None          (* TypeError, caught *)
            | Some issuer =>
                if negb (Js.startsWith issuer "https://clerk.") then None
                else sub payload
            end
      end.

(** [!payload.iss || (!payload.iss.includes('clerk.') &&
    !payload.iss.includes('.clerk.accounts.'))] *)
Definition issuer_rejected (payload : ClerkJwtPayload) : bool :=
  match iss payload with
  | None => true
  | Some issuer =>
      negb (Js.truthy issuer)
      || (negb (Js.includes issuer "clerk.")
          && negb (Js.includes issuer ".clerk.accounts."))
  end.

(** The [authMiddleware] of the Worker in [session-manager.ts];
    [header] is [c.req.header('Authorization')]. *)
Definition authMiddleware (header : option string) (date_now : Z)
  : auth_outcome :=
  let authHeader := default "" header in
  if negb (Js.truthy authHeader)
     || negb (Js.startsWith authHeader "Bearer ")
  then Unauthorized "no_bearer" None
  else
    let token := Js.substring_from 7 authHeader in
    let parts := Js.split "."%char token in
    if negb (Nat.eqb (length parts) 3)
    then Unauthorized "invalid_jwt_format" None
    else
      match decode (nth 1 parts "") with
      | Throw _ => Unauthorized "verify_error" None
      | Ok payload =>
          let now := seconds date_now in
          if exp_truthy_and_before payload now
          then Unauthorized "token_expired" None
          else if issuer_rejected payload
          then Unauthorized "invalid_issuer" None
          else
            match sub payload with
            | Some userId =>
                if Js.truthy userId then Next userId
                else Unauthorized "no_user_id" None
            | None => Unauthorized "no_user_id" None
            end
      end.

(** The [authMiddleware] of [worker-hono.ts]. *)
Definition authMiddleware_hono (header : option string) (date_now : Z)
  : auth_outcome :=
  let authHeader := default "" header in
  if negb (Js.truthy authHeader)
     || negb (Js.startsWith authHeader "Bearer ")
  then Unauthorized "no_bearer" None
  else
    let token := Js.substring_from 7 authHeader in
    let parts := Js.split "."%char token in
    if negb (Nat.eqb (length parts) 3)
    then Unauthorized "invalid_jwt_format" None
    else
      match decode (nth 1 parts "") with
      | Throw e => Unauthorized (js_String e) None
      | Ok payload =>
          let now := seconds date_now in
          if exp_before payload now
          then Unauthorized "token_expired" None
          else if issuer_rejected payload
          then Unauthorized "invalid_issuer" (iss payload)
          else
            match sub payload with
            | Some userId =>
                if Js.truthy userId then Next userId
                else Unauthorized "no_user_id" None
            | None => Unauthorized "no_user_id" None
            end
      end.
End Verifier.
End Clerk.

(** ** The Worker routes (session-manager.ts, second revision) *)

Module Worker.




Section Routes.
Context {S E : Type}.
Variable store : SessionStore S E.
Variable upstream : OpenCodeService.request -> OpenCodeService.fetch_outcome.
Variable decode : string -> result Clerk.ClerkJwtPayload.
Variable js_String : thrown -> string.



End Routes.
End Worker.

(** ** Vocabulary of the statements *)

(** No ['-'] occurs in the string: true of every rendered counter. *)
Fixpoint dash_free (s : string) : bool :=
  match s with
  | "" => true
  | String c s' => negb (Ascii.eqb c "-") && dash_free s'
  end.

(** No occurrence of the separator [sep]. *)
Fixpoint sep_free (sep : ascii) (s : string) : bool :=
  match s with
  | "" => true
  | String c s' => negb (Ascii.eqb c sep) && sep_free sep s'
  end.

(** The session stored under [i], if any, belongs to [owner], and the counter
    has passed [c]: what every later call preserves for the id made from
    counter value [c]. *)
Definition InMemory_kept (i owner : string) (c : N)
    (st : InMemorySessionStore.state) : Prop :=
  (c < InMemorySessionStore.sessionCounter st)%N ∧
  ∀ s, JsMap.get i (InMemorySessionStore.sessions st) = Some s →
       userId s = owner.

Definition SessionManager_kept (i owner : string) (c : N)
    (st : SessionManager.state) : Prop :=
  (c < SessionManager.idCounter st)%N ∧
  ∀ s, JsMap.get i (SessionManager.sessions st) = Some s → userId s = owner.


(** The request [callOpenCodeAPI] is expected to send for a history. *)
Definition completion_request (key : string) (messages : list Message)
  : OpenCodeService.request :=
  OpenCodeService.mkRequest OpenCodeService.apiEndpoint "POST"
    ("Bearer " +:+ key)
    (OpenCodeService.mkRequestBody OpenCodeService.defaultModel messages false).



(** What [callOpenCodeAPI] resolves to for an upstream outcome. *)
Definition reply_of (o : OpenCodeService.fetch_outcome) : string :=
  match OpenCodeService.read_response o with
  | Ok reply => reply
  | Throw e => OpenCodeService.fallback e
  end.

(** The header [Bearer h.p.sg] of a three-segment credential. *)
Definition bearer_header (h p sg : string) : string :=
  "Bearer " +:+ h +:+ "." +:+ p +:+ "." +:+ sg.

(** The three segments are what the dots separate. *)
Definition three_segments (h p sg : string) : Prop :=
  sep_free "." h = true ∧ sep_free "." p = true ∧ sep_free "." sg = true.

(** ** Sample surroundings for the concrete instances *)

(** A decoder that knows one middle segment per payload of interest. *)
Definition sample_decode (now : Z) (segment : string)
  : result Clerk.ClerkJwtPayload :=
  if String.eqb segment "valid" then
    Ok (Clerk.mkPayload (Some "user-1") (Some "https://clerk.example.com")
          (Some 9999999999%Z))
  else if String.eqb segment "expired" then
    Ok (Clerk.mkPayload (Some "user-1") (Some "https://clerk.example.com")
          (Some 1000000000%Z))
  else if String.eqb segment "boundary" then
    Ok (Clerk.mkPayload (Some "user-1") (Some "https://clerk.example.com")
          (Some now))
  else if String.eqb segment "noexp" then
    Ok (Clerk.mkPayload (Some "user-1") (Some "https://clerk.example.com")
          None)
  else Throw (JsError "Unexpected token").

Definition sample_js_String (e : thrown) : string := "[object Object]".


(** ** States a store can be driven into *)

(** The keys of a [Map], in insertion order. *)
Definition JsMap_keys {V} (m : JsMap.t V) : list string := map fst m.

(** What holds of [InMemorySessionStore] in every state reached from the new
    store: keys are distinct, a session is stored under its own id, that id
    was made from a counter value already used up, and a message history is
    kept exactly for the stored sessions. *)
Record InMemory_wf (st : InMemorySessionStore.state) : Prop := mkInMemoryWf {
  wf_keys_distinct : NoDup (JsMap_keys (InMemorySessionStore.sessions st));
  wf_key_is_id :
    ∀ k s, JsMap.get k (InMemorySessionStore.sessions st) = Some s → id s = k;
  wf_key_counter :
    ∀ k s, JsMap.get k (InMemorySessionStore.sessions st) = Some s →
           ∃ now c, k = InMemorySessionStore.session_id now c ∧
                    (c < InMemorySessionStore.sessionCounter st)%N;
  wf_history :
    ∀ k, JsMap.get k (InMemorySessionStore.messages st) = None ↔
         JsMap.get k (InMemorySessionStore.sessions st) = None;
}.

(** The calls that change the durable store, with what each reads from its
    environment; a call that throws leaves the tables as they were. *)
Inductive Durable_op : Type :=
| DurableCreate (e : SessionDurableObject.entropy) (user : string)
| DurableDelete (sessionId user : string)
| DurableAddMessage (now : Z) (sessionId user : string) (message : Message).

Definition Durable_step (o : Durable_op) (st : SessionDurableObject.state)
  : SessionDurableObject.state :=
  match o with
  | DurableCreate e u => snd (SessionDurableObject.createSession e u st)
  | DurableDelete sid u => snd (SessionDurableObject.deleteSession sid u st)
  | DurableAddMessage now sid u m =>
      snd (SessionDurableObject.addMessage now sid u m st)
  end.

Definition Durable_run (ops : list Durable_op)
    (st : SessionDurableObject.state) : SessionDurableObject.state :=
  fold_left (fun s o => Durable_step o s) ops st.

(** The constraints of the schema, as facts about the tables: the primary
    key of [sessions], the foreign key of [messages], and the AUTOINCREMENT
    key of [messages]. *)
Record Durable_wf (st : SessionDurableObject.state) : Prop := mkDurableWf {
  wf_primary_key :
    NoDup (map SessionDurableObject.row_id (SessionDurableObject.sessions st));
  wf_foreign_key :
    ∀ m, m ∈ SessionDurableObject.messages st →
         SessionDurableObject.session_id m
         ∈ map SessionDurableObject.row_id (SessionDurableObject.sessions st);
  wf_message_ids :
    ∀ m, m ∈ SessionDurableObject.messages st →
         (SessionDurableObject.message_id m
          < SessionDurableObject.message_seq st)%N;
  wf_message_key :
    NoDup (map SessionDurableObject.message_id
               (SessionDurableObject.messages st));
}.

(** The messages a history is read from. *)
Definition Durable_session_messages (sessionId : string)
    (st : SessionDurableObject.state) : list Message :=
  map (fun row => mkMessage (SessionDurableObject.message_role row)
                            (SessionDurableObject.message_content row))
      (List.filter
         (fun m => String.eqb (SessionDurableObject.session_id m) sessionId)
         (SessionDurableObject.messages st)).

(** ** The session routes of the Worker (session-manager.ts, second revision) *)

Module WorkerSessions.

(** The bodies the three routes answer with. *)
Inductive body : Type :=
| SessionsBody (sessions : list Session)   (* [{ sessions: userSessions }] *)
| SessionBody (session : Session)          (* [c.json(session, 201)] *)
| EmptyBody                                (* [c.body(null, 204)] *)
| ErrorBody (error : string).              (* [{ error }] *)

Record response : Type := mkResponse {
  status : Z;
  response_body : body;
}.

Section Routes.
Context {S E : Type}.
Variable store : SessionStore S E.



(** [apiRoutes.delete('/sessions/:id', ...)]; [sessionId] is
    [c.req.param('id')]. *)
Definition delete_session (user sessionId : string)
  : M (OpenCodeService.state S) response :=
  let! deleted := OpenCodeService.deleteSession store sessionId user in
  if negb deleted
  then ret (mkResponse 404 (ErrorBody "Session not found"))
  else ret (mkResponse 204 EmptyBody).
End Routes.
End WorkerSessions.

(** [parts.join(sep)] for a one-character separator. *)
Fixpoint Js_join (sep : ascii) (parts : list string) : string :=
  match parts with
  | [] => ""
  | [x] => x
  | x :: rest => x +:+ String sep (Js_join sep rest)
  end.

(** The number of occurrences of a character. *)
Fixpoint count_char (c : ascii) (s : string) : nat :=
  match s with
  | "" => 0
  | String c' s' => (if Ascii.eqb c' c then 1 else 0) + count_char c s'
  end.

(** ** [verifyClerkSessionOrToken] of [clerk.ts] and the Clerk Backend API *)

Module ClerkBackend.

(** A request to the Backend API: the URL, the [Authorization] header and,
    for the sign-in attempt, the [ticket] of the body
    [{ strategy: 'ticket', ticket }]. *)
Record request : Type := mkRequest {
  url : string;
  authorization : string;
  ticket : option string;
}.

(** What is read of a response: [response.ok], and [data.user_id] of
    [await response.json()].  An absent field is [None]; [Throw] stands for
    a body that does not parse or has no fields to read. *)
Record response : Type := mkResponse {
  ok : bool;
  json_user_id : result (option string);
}.

Inductive fetch_outcome : Type :=
| FetchRejects (e : thrown)
| FetchResolves (r : response).

Definition sign_in_request (token secretKey : string) : request :=
  mkRequest "https://api.clerk.com/v1/client/sign_ins?_clerk_sdk_version=5"
    ("Bearer " +:+ secretKey) (Some token).

Definition verify_request (token secretKey : string) : request :=
  mkRequest ("https://api.clerk.com/v1/sessions/" +:+ token +:+ "/verify")
    ("Bearer " +:+ secretKey) None.

Section Backend.
Variable decode : string -> result Clerk.ClerkJwtPayload.
Variable fetch : request -> fetch_outcome.

(** The first [try] block: the user id it returns, if it returns. *)
Definition ticket_attempt (token secretKey : string) : option string :=
  match fetch (sign_in_request token secretKey) with
  | FetchRejects _ => None
  | FetchResolves r =>
      if ok r then
        match json_user_id r with
        | Ok (Some user_id) =>
            if Js.truthy user_id then Some user_id else None
        | Ok None => None
        | Throw _ => None
        end
      else None
  end.

(** The second [try] block, which always returns. *)
Definition session_attempt (token secretKey : string) : option string :=
  match fetch (verify_request token secretKey) with
  | FetchRejects _ => None
  | FetchResolves r =>
      if negb (ok r) then None
      else
        match json_user_id r with
        | Throw _ => None
        | Ok user_id => if Js.truthy_opt user_id then user_id else None
        end
  end.

(** [verifyClerkSessionOrToken(token, secretKey)]; [sent] is the list of
    requests sent so far. *)
Definition verifyClerkSessionOrToken (token secretKey : string)
    (date_now : Z) (sent : list request) : option string * list request :=
  let jwtUserId :=
    Clerk.verifyClerkToken decode ("Bearer " +:+ token) date_now in
  if Js.truthy_opt jwtUserId then (jwtUserId, sent)
  else
    let sent1 := sent ++ [sign_in_request token secretKey] in
    match ticket_attempt token secretKey with
    | Some user_id => (Some user_id, sent1)
    | None =>
        (session_attempt token secretKey,
         sent1 ++ [verify_request token secretKey])
    end.

(** [verifyClerkTokenWithSecret(token, secretKey)] *)
Definition verifyClerkTokenWithSecret (token secretKey : string)
    (date_now : Z) (sent : list request) : option string * list request :=
  verifyClerkSessionOrToken token secretKey date_now sent.
End Backend.
End ClerkBackend.

(** A Backend API that knows no ticket and one session. *)
Definition sample_backend (q : ClerkBackend.request)
  : ClerkBackend.fetch_outcome :=
  match ClerkBackend.ticket q with
  | Some _ =>
      ClerkBackend.FetchResolves
        (ClerkBackend.mkResponse false (Throw NonError))
  | None =>
      ClerkBackend.FetchResolves
        (ClerkBackend.mkResponse true (Ok (Some "user-1")))
  end.

(** ** Path components: [UserStorage] and [SandboxManager] *)

Module Paths.

(** A JS string as its UTF-16 code units: the regular expressions of the
    sanitisers have no [u] flag and work unit by unit. *)
Definition js_string : Type := list N.

(** The units of an ASCII literal. *)
Definition units (s : string) : js_string :=
  map N_of_ascii (String.list_ascii_of_string s).

Definition slash : N := 47.
Definition backslash : N := 92.
Definition dot : N := 46.
Definition underscore : N := 95.
Definition hyphen : N := 45.

(** The class [a-zA-Z0-9_-] (written [a-zA-Z0-9-_] in [user-storage.ts]). *)
Definition word_unit (c : N) : bool :=
  (N.leb 97 c && N.leb c 122) || (N.leb 65 c && N.leb c 90)
  || (N.leb 48 c && N.leb c 57) || N.eqb c underscore || N.eqb c hyphen.

(** [s.replace(/[^a-zA-Z0-9_-]/g, '_')] *)
Definition replace_unsafe (s : js_string) : js_string :=
  map (fun c => if word_unit c then c else underscore) s.

(** [s.replace(/[\/\\]/g, '_')] *)
Definition replace_separators (s : js_string) : js_string :=
  map (fun c => if N.eqb c slash || N.eqb c backslash then underscore else c)
    s.

(** [s.replace(/c/g, '')] for one unit [c] *)
Definition remove_unit (c : N) (s : js_string) : js_string :=
  List.filter (fun x => negb (N.eqb x c)) s.

(** [s.replace(/\.\./g, '')]: the matches are found from left to right and
    do not overlap. *)
Fixpoint remove_dotdot (s : js_string) : js_string :=
  match s with
  | a :: (b :: rest) as tl =>
      if N.eqb a dot && N.eqb b dot then remove_dotdot rest
      else a :: remove_dotdot tl
  | _ => s
  end.

(** Two dots in a row, somewhere. *)
Fixpoint adjacent_dots (s : js_string) : bool :=
  match s with
  | a :: (b :: _) as tl => (N.eqb a dot && N.eqb b dot) || adjacent_dots tl
  | _ => false
  end.

(** [class UserStorage] of [user-storage.ts]; [join] is [path.join]. *)
Section UserStorage.
Variable join : js_string -> js_string -> js_string.
Variable baseDir : js_string.

(** [getUserDir(userId)] *)
Definition getUserDir (userId : js_string) : js_string :=
  let sanitizedId := replace_unsafe userId in
  join baseDir sanitizedId.

(** [sanitizeFilename(filename)] *)
Definition sanitizeFilename (filename : js_string) : js_string :=
  remove_dotdot (replace_separators filename).

(** The [filePath] of [writeFile], [readFile] and [deleteFile]. *)
Definition filePath (userId filename : js_string) : js_string :=
  join (getUserDir userId) (sanitizeFilename filename).
End UserStorage.

(** [class SandboxManager] *)

(** [sanitizeUserId(userId)] *)
Definition sanitizeUserId (userId : js_string) : js_string :=
  replace_unsafe
    (remove_unit backslash (remove_unit slash (remove_dotdot userId))).

(** [getUserWorkspacePath(userId)] *)
Definition getUserWorkspacePath (userId : js_string) : js_string :=
  let sanitizedId := sanitizeUserId userId in
  units "/home/user/workspaces/" ++ sanitizedId.

(** What [getSandboxForUser(userId)] asks of its surroundings: the id it
    passes to [getSandbox], and the command it has the sandbox run. *)
Record sandbox_request : Type := mkSandboxRequest {
  sandbox_id : js_string;
  exec_command : js_string;
}.

Definition getSandboxForUser (userId : js_string) : sandbox_request :=
  let sanitizedId := sanitizeUserId userId in
  let workspacePath := getUserWorkspacePath sanitizedId in
  mkSandboxRequest (units "opencode-" ++ sanitizedId)
    (units "mkdir -p " ++ workspacePath).
End Paths.

(** A [path.join] for the concrete instances: base, slash, component. *)
Definition sample_join (a b : Paths.js_string) : Paths.js_string :=
  a ++ [Paths.slash] ++ b.

(** ** [class ApiApp] of [api/app.ts]: the session routes *)

Module ApiApp.

Inductive body : Type :=
| SessionBody (session : Session)       (* [c.json(session)] *)
| ErrorBody (error : string)            (* [c.json({ error })] *)
| NullBody.                             (* [c.body(null)] *)

Record response : Type := mkResponse {
  status : Z;
  response_body : body;
}.

(** [POST /sessions]; [user] is [c.get('userId')] and [now] the value of
    [Date.now()]. *)
Definition post_session (now : Z) (user : string)
    (st : SessionManager.state) : response * SessionManager.state :=
  let '(session, st') := SessionManager.createSession now user st in
  (mkResponse 201 (SessionBody session), st').

(** [GET /sessions/:id] *)
Definition get_session (user sessionId : string)
    (st : SessionManager.state) : response :=
  match SessionManager.getSession sessionId user st with
  | None => mkResponse 404 (ErrorBody "Session not found")
  | Some session => mkResponse 200 (SessionBody session)
  end.

(** [DELETE /sessions/:id] *)
Definition delete_session (user sessionId : string)
    (st : SessionManager.state) : response * SessionManager.state :=
  let '(_, st') := SessionManager.deleteSession sessionId user st in
  (mkResponse 204 NullBody, st').
End ApiApp.

(** ** [class OpenCodeService] (opencode-client.ts, first revision) *)

Module OpenCodeSdkService.

(** [interface OpenCodeSession { id; userId; model; createdAt }] *)
Record OpenCodeSession : Type := mkOpenCodeSession {
  id : string;
  userId : string;
  model : string;
  createdAt : Z;
}.

(** What is read of the SDK's answers; a field the answer does not have is
    [None]. *)
Record sdk_session : Type := mkSdkSession {
  sdk_id : option string;
  sdk_model : option string;
}.

Record sdk_response : Type := mkSdkResponse {
  response_text : option string;
  response_content : option string;
}.

(** The calls made on [this.client.session]. *)
Inductive sdk_call : Type :=
| SessionCreate (model : string)
| SessionPrompt (sessionId prompt : string).

Record PromptResponse : Type := mkPromptResponse { text : string }.

Record state : Type := mkState {
  sessions : JsMap.t OpenCodeSession;
  sessionCounter : N;
  client : list sdk_call;
}.

Definition init : state := mkState JsMap.empty 0 [].

(** [x || d] for an optional string [x] *)
Definition or_string (x : option string) (d : string) : string :=
  match x with
  | Some s => if Js.truthy s then s else d
  | None => d
  end.

(** [createSession(userId, model = 'gpt-4o')]; [answer] is what
    [this.client.session.create] settles with, [now] is [Date.now()]. *)
Definition createSession (answer : result sdk_session) (now : Z)
    (user : string) (model_arg : option string) : M state OpenCodeSession :=
  fun st =>
    let model := default "gpt-4o" model_arg in
    let called := client st ++ [SessionCreate model] in
    match answer with
    | Throw e => (Throw e, mkState (sessions st) (sessionCounter st) called)
    | Ok sdkSession =>
        let '(session_id, counter) :=
          if Js.truthy_opt (sdk_id sdkSession)
          then (default "" (sdk_id sdkSession), sessionCounter st)
          else ("opencode-" +:+ pretty (sessionCounter st),
                (sessionCounter st + 1)%N) in
        let session :=
          mkOpenCodeSession session_id user
            (or_string (sdk_model sdkSession) model) now in
        (Ok session,
         mkState (JsMap.set session_id session (sessions st)) counter called)
    end.

(** [sendPrompt(sessionId, userId, prompt)]; [answer] is what
    [this.client.session.prompt] settles with, if it is called. *)
Definition sendPrompt (answer : result sdk_response)
    (sessionId user prompt : string) : M state PromptResponse :=
  fun st =>
    match JsMap.get sessionId (sessions st) with
    | None => (Throw (JsError "Session not found"), st)
    | Some session =>
        if negb (String.eqb (userId session) user)
        then (Throw (JsError "Session not found or access denied"), st)
        else
          let called := client st ++ [SessionPrompt sessionId prompt] in
          let st' := mkState (sessions st) (sessionCounter st) called in
          match answer with
          | Throw e => (Throw e, st')
          | Ok response =>
              (Ok (mkPromptResponse
                     (or_string (response_text response)
                        (or_string (response_content response) ""))),
               st')
          end
    end.

(** [getSession(sessionId, userId)] *)
Definition getSession (sessionId user : string) (st : state)
  : option OpenCodeSession :=
  match JsMap.get sessionId (sessions st) with
  | Some session =>
      if String.eqb (userId session) user then Some session else None
  | None => None
  end.

End OpenCodeSdkService.

(* ------------------------------------------------------------------ *)
(** * Part II: properties                                              *)
(* ------------------------------------------------------------------ *)

(** ** [JsMap] *)

Section JsMapFacts.
Context {V : Type}.
Implicit Types (m : JsMap.t V) (k : string) (v : V).

Lemma JsMap_get_set_eq k v m : JsMap.get k (JsMap.set k v m) = Some v.
Proof.
  induction m as [|[k' v'] m IH]; simpl.
  - by rewrite String.eqb_refl.
  - destruct (String.eqb k' k) eqn:Hk; simpl.
    + by rewrite String.eqb_refl.
    + by rewrite Hk.
Qed.

Lemma JsMap_get_set_ne k k' v m :
  k ≠ k' → JsMap.get k' (JsMap.set k v m) = JsMap.get k' m.
Proof.
  intros Hne. apply String.eqb_neq in Hne.
  induction m as [|[k1 v1] m IH]; simpl.
  - by rewrite Hne.
  - destruct (String.eqb k1 k) eqn:Hk; simpl.
    + apply String.eqb_eq in Hk as ->. by rewrite Hne.
    + by rewrite IH.
Qed.

Lemma JsMap_get_delete_eq k m : JsMap.get k (JsMap.delete k m) = None.
Proof.
  induction m as [|[k' v'] m IH]; simpl; [done|].
  destruct (String.eqb k' k) eqn:Hk; simpl; [done|]. by rewrite Hk.
Qed.

Lemma JsMap_get_delete_ne k k' m :
  k ≠ k' → JsMap.get k' (JsMap.delete k m) = JsMap.get k' m.
Proof.
  intros Hne. apply String.eqb_neq in Hne.
  induction m as [|[k1 v1] m IH]; simpl; [done|].
  destruct (String.eqb k1 k) eqn:Hk; simpl.
  - apply String.eqb_eq in Hk as ->. by rewrite Hne.
  - by rewrite IH.
Qed.

Lemma JsMap_delete_absent k m :
  JsMap.get k m = None → JsMap.delete k m = m.
Proof.
  induction m as [|[k' v'] m IH]; simpl; [done|].
  destruct (String.eqb k' k); [done|]. intros H. by rewrite IH.
Qed.

Lemma JsMap_get_values k v m : JsMap.get k m = Some v → v ∈ JsMap.values m.
Proof.
  induction m as [|[k' v'] m IH]; simpl; [done|].
  destruct (String.eqb k' k).
  - intros [= ->]. left.
  - intros H. right. by apply IH.
Qed.
End JsMapFacts.

(** ** Rendered numbers and fresh ids *)

Lemma string_app_cons c s1 s2 : String c s1 +:+ s2 = String c (s1 +:+ s2).
Proof. reflexivity. Qed.

Lemma string_app_nil_l s : "" +:+ s = s.
Proof. reflexivity. Qed.

Lemma string_app_assoc s1 s2 s3 : (s1 +:+ s2) +:+ s3 = s1 +:+ (s2 +:+ s3).
Proof.
  induction s1 as [|c s1 IH]; [done|].
  by rewrite !string_app_cons, IH.
Qed.

Lemma dash_free_app s1 s2 :
  dash_free (s1 +:+ s2) = dash_free s1 && dash_free s2.
Proof.
  induction s1 as [|c s1 IH]; [done|].
  rewrite string_app_cons. simpl. by rewrite IH, andb_assoc.
Qed.

Lemma pretty_N_char_dash_free x s :
  dash_free (String (pretty_N_char x) s) = dash_free s.
Proof. unfold pretty_N_char. by repeat case_match. Qed.

Lemma pretty_N_go_dash_free x s :
  dash_free s = true → dash_free (pretty_N_go x s) = true.
Proof.
  revert s. induction (N.lt_wf_0 x) as [x _ IH]; intros s Hs.
  destruct (decide (x = 0)%N) as [->|Hx]; [by rewrite pretty_N_go_0|].
  rewrite pretty_N_go_step by lia.
  apply IH; [apply N.div_lt; lia|]. by rewrite pretty_N_char_dash_free.
Qed.

Lemma pretty_N_dash_free (c : N) : dash_free (pretty c) = true.
Proof.
  unfold pretty, pretty_N. case_decide; [done|].
  by apply pretty_N_go_dash_free.
Qed.

(** Two strings that end in a dash and a dash-free suffix agree on that
    suffix. *)
Lemma dash_suffix_inj a a' b b' :
  dash_free b = true → dash_free b' = true →
  a +:+ String "-" b = a' +:+ String "-" b' → b = b'.
Proof.
  intros Hb Hb'. revert a'.
  induction a as [|c a IH]; intros [|c' a'];
    rewrite ?string_app_cons, ?string_app_nil_l; intros Heq.
  - by injection Heq.
  - injection Heq as <- ->.
    rewrite dash_free_app in Hb. simpl in Hb.
    by rewrite andb_false_r in Hb.
  - injection Heq as -> <-.
    rewrite dash_free_app in Hb'. simpl in Hb'.
    by rewrite andb_false_r in Hb'.
  - injection Heq as _ Heq. by eapply IH.
Qed.

Lemma InMemory_session_id_inj now now' c c' :
  InMemorySessionStore.session_id now c
  = InMemorySessionStore.session_id now' c' → c = c'.
Proof.
  unfold InMemorySessionStore.session_id. intros Heq.
  rewrite <- 2!(string_app_assoc "opencode-") in Heq.
  change ("-" +:+ pretty c) with (String "-" (pretty c)) in Heq.
  change ("-" +:+ pretty c') with (String "-" (pretty c')) in Heq.
  apply dash_suffix_inj in Heq; auto using pretty_N_dash_free.
  by apply (inj pretty).
Qed.

Lemma SessionManager_session_id_inj c c' :
  SessionManager.session_id c = SessionManager.session_id c' → c = c'.
Proof.
  unfold SessionManager.session_id. intros Heq.
  apply (dash_suffix_inj "session" "session") in Heq;
    auto using pretty_N_dash_free.
  by apply (inj pretty).
Qed.

(** ** [InMemorySessionStore] and [SessionManager]: ownership *)

Lemma InMemory_getSession_Some sid u st s :
  InMemorySessionStore.getSession sid u st = Some s ↔
  JsMap.get sid (InMemorySessionStore.sessions st) = Some s ∧ userId s = u.
Proof.
  unfold InMemorySessionStore.getSession.
  destruct (JsMap.get sid _) as [s'|]; [|by split; [|intros []]].
  destruct (String.eqb (userId s') u) eqn:Hu.
  - apply String.eqb_eq in Hu. split; [by intros [= <-]|]. by intros [[= ->] _].
  - apply String.eqb_neq in Hu. split; [done|]. by intros [[= ->] ?].
Qed.

Lemma InMemory_getSession_None sid u st :
  InMemorySessionStore.getSession sid u st = None ↔
  ∀ s, JsMap.get sid (InMemorySessionStore.sessions st) = Some s →
       userId s ≠ u.
Proof.
  unfold InMemorySessionStore.getSession.
  destruct (JsMap.get sid _) as [s'|]; [|naive_solver].
  destruct (String.eqb (userId s') u) eqn:Hu.
  - apply String.eqb_eq in Hu. naive_solver.
  - apply String.eqb_neq in Hu. naive_solver.
Qed.

Lemma InMemory_deleteSession_denied sid u st :
  InMemorySessionStore.getSession sid u st = None →
  InMemorySessionStore.deleteSession sid u st = (false, st).
Proof.
  unfold InMemorySessionStore.getSession, InMemorySessionStore.deleteSession.
  destruct (JsMap.get sid _) as [s'|]; [|done].
  by destruct (String.eqb (userId s') u).
Qed.

Lemma InMemory_kept_step now c owner o st :
  InMemory_kept (InMemorySessionStore.session_id now c) owner c st →
  InMemory_kept (InMemorySessionStore.session_id now c) owner c
                (InMemorySessionStore.step o st).
Proof.
  intros [Hc Hown]. destruct o as [clk u|sid u|sid u m]; simpl.
  - split; simpl; [lia|]. intros s.
    rewrite JsMap_get_set_ne; [apply Hown|].
    intros Heq. apply InMemory_session_id_inj in Heq. lia.
  - unfold InMemorySessionStore.deleteSession.
    destruct (JsMap.get sid _) as [s'|]; [|done].
    destruct (String.eqb (userId s') u); [|done].
    split; simpl; [done|]. intros s.
    destruct (decide (sid = InMemorySessionStore.session_id now c)) as [->|Hne].
    + by rewrite JsMap_get_delete_eq.
    + rewrite JsMap_get_delete_ne by done. apply Hown.
  - unfold InMemorySessionStore.addMessage.
    by destruct (InMemorySessionStore.getSession sid u st).
Qed.

Lemma InMemory_kept_run now c owner ops st :
  InMemory_kept (InMemorySessionStore.session_id now c) owner c st →
  InMemory_kept (InMemorySessionStore.session_id now c) owner c
                (InMemorySessionStore.run ops st).
Proof.
  revert st. induction ops as [|o ops IH]; intros st Hst; [done|].
  simpl. by apply IH, InMemory_kept_step.
Qed.

Lemma InMemory_kept_create clk u st :
  InMemory_kept
    (id (fst (InMemorySessionStore.createSession clk u st))) u
    (InMemorySessionStore.sessionCounter st)
    (snd (InMemorySessionStore.createSession clk u st)).
Proof.
  split; simpl; [lia|]. intros s. rewrite JsMap_get_set_eq. by intros [= <-].
Qed.

Lemma SessionManager_kept_step c owner o st :
  SessionManager_kept (SessionManager.session_id c) owner c st →
  SessionManager_kept (SessionManager.session_id c) owner c
                      (SessionManager.step o st).
Proof.
  intros [Hc Hown]. destruct o as [now u|sid u]; simpl.
  - split; simpl; [lia|]. intros s.
    rewrite JsMap_get_set_ne; [apply Hown|].
    intros Heq. apply SessionManager_session_id_inj in Heq. lia.
  - unfold SessionManager.deleteSession.
    destruct (JsMap.get sid _) as [s'|]; [|done].
    destruct (String.eqb (userId s') u); [|done].
    split; simpl; [done|]. intros s.
    destruct (decide (sid = SessionManager.session_id c)) as [->|Hne].
    + by rewrite JsMap_get_delete_eq.
    + rewrite JsMap_get_delete_ne by done. apply Hown.
Qed.

Lemma SessionManager_kept_run c owner ops st :
  SessionManager_kept (SessionManager.session_id c) owner c st →
  SessionManager_kept (SessionManager.session_id c) owner c
                      (SessionManager.run ops st).
Proof.
  revert st. induction ops as [|o ops IH]; intros st Hst; [done|].
  simpl. by apply IH, SessionManager_kept_step.
Qed.

Lemma SessionManager_getSession_None sid u st :
  SessionManager.getSession sid u st = None ↔
  ∀ s, JsMap.get sid (SessionManager.sessions st) = Some s → userId s ≠ u.
Proof.
  unfold SessionManager.getSession.
  destruct (JsMap.get sid _) as [s'|]; [|naive_solver].
  destruct (String.eqb (userId s') u) eqn:Hu.
  - apply String.eqb_eq in Hu. naive_solver.
  - apply String.eqb_neq in Hu. naive_solver.
Qed.

(** C1 (ownership isolation).  Start from any store, let [u1] create a
    session and let any sequence of further calls follow.  For every other
    user [u2]: [getSession] finds nothing, [deleteSession] answers [false]
    and returns the store as it was (sessions and message histories), and
    [getConversationHistory] is empty.  For [SessionManager], which has
    neither a result of [deleteSession] nor histories: [getSession] finds
    nothing and [deleteSession] leaves the manager as it was. *)
Theorem C1_ownership_isolation (u1 u2 : string) :
  u1 ≠ u2 →
  (∀ st0 clk ops,
      let s := fst (InMemorySessionStore.createSession clk u1 st0) in
      let st := InMemorySessionStore.run ops
                  (snd (InMemorySessionStore.createSession clk u1 st0)) in
      InMemorySessionStore.getSession (id s) u2 st = None ∧
      InMemorySessionStore.deleteSession (id s) u2 st = (false, st) ∧
      InMemorySessionStore.getConversationHistory (id s) u2 st = []) ∧
  (∀ st0 now ops,
      let s := fst (SessionManager.createSession now u1 st0) in
      let st := SessionManager.run ops
                  (snd (SessionManager.createSession now u1 st0)) in
      SessionManager.getSession (id s) u2 st = None ∧
      snd (SessionManager.deleteSession (id s) u2 st) = st).
Proof.
  intros Hne. split.
  - intros st0 clk ops s st.
    assert (InMemorySessionStore.getSession (id s) u2 st = None) as Hget.
    { apply InMemory_getSession_None. intros s' Hs'.
      pose proof (InMemory_kept_create clk u1 st0) as Hk.
      eapply InMemory_kept_run in Hk. destruct Hk as [_ Hown].
      by rewrite (Hown _ Hs'). }
    split; [done|]. split.
    + by apply InMemory_deleteSession_denied.
    + unfold InMemorySessionStore.getConversationHistory. by rewrite Hget.
  - intros st0 now ops s st.
    assert (SessionManager.getSession (id s) u2 st = None) as Hget.
    { apply SessionManager_getSession_None. intros s' Hs'.
      assert (SessionManager_kept (id s) u1 (SessionManager.idCounter st0)
                (snd (SessionManager.createSession now u1 st0))) as Hk.
      { split; simpl; [lia|]. intros s1. rewrite JsMap_get_set_eq.
        by intros [= <-]. }
      eapply SessionManager_kept_run in Hk. destruct Hk as [_ Hown].
      by rewrite (Hown _ Hs'). }
    split; [done|].
    unfold SessionManager.getSession in Hget.
    unfold SessionManager.deleteSession.
    destruct (JsMap.get (id s) _) as [s'|]; [|done].
    by destruct (String.eqb (userId s') u2).
Qed.

Lemma C1_ownership_isolation_witness :
  let st0 := InMemorySessionStore.init in
  let clk := InMemorySessionStore.mkClock 1700000000000 1700000000001 in
  let s := fst (InMemorySessionStore.createSession clk "user-1" st0) in
  let st :=
    InMemorySessionStore.run
      [InMemorySessionStore.OpAddMessage (id s) "user-1"
         (mkMessage "user" "Hello");
       InMemorySessionStore.OpCreate clk "user-2"]
      (snd (InMemorySessionStore.createSession clk "user-1" st0)) in
  InMemorySessionStore.getSession (id s) "user-2" st = None ∧
  InMemorySessionStore.deleteSession (id s) "user-2" st = (false, st) ∧
  InMemorySessionStore.getConversationHistory (id s) "user-2" st = [].
Proof.
  intros st0 clk s st.
  apply (C1_ownership_isolation "user-1" "user-2"). discriminate.
Defined.

(** The ids the two stores hand out, on concrete readings. *)
Example InMemory_session_id_example :
  InMemorySessionStore.session_id 1700000000000 7 = "opencode-1700000000000-7".
Proof. vm_compute. reflexivity. Qed.

Example SessionManager_session_id_example :
  id (fst (SessionManager.createSession 5 "user-1" SessionManager.init))
  = "session-0".
Proof. vm_compute. reflexivity. Qed.

(** ** Round trip *)

(** C7 (round trip).  In every state of [SessionManager] and of
    [InMemorySessionStore], the session [createSession(u)] returns is what
    [getSession] finds under its id for [u] right afterwards: same id, and
    [userId] equal to [u]. *)
Theorem C7_round_trip (u : string) :
  (∀ st now,
      let '(s, st') := SessionManager.createSession now u st in
      ∃ s', SessionManager.getSession (id s) u st' = Some s' ∧
            id s' = id s ∧ userId s' = u) ∧
  (∀ st clk,
      let '(s, st') := InMemorySessionStore.createSession clk u st in
      ∃ s', InMemorySessionStore.getSession (id s) u st' = Some s' ∧
            id s' = id s ∧ userId s' = u).
Proof.
  split.
  - intros st now. simpl. eexists. split.
    + unfold SessionManager.getSession. simpl.
      rewrite JsMap_get_set_eq. simpl. by rewrite String.eqb_refl.
    + done.
  - intros st clk. simpl. eexists. split.
    + unfold InMemorySessionStore.getSession. simpl.
      rewrite JsMap_get_set_eq. simpl. by rewrite String.eqb_refl.
    + done.
Qed.

(** ** [deleteSession] *)

Lemma InMemory_deleteSession_spec sid u st :
  let '(deleted, st') := InMemorySessionStore.deleteSession sid u st in
  (deleted = true ↔
     ∃ s, JsMap.get sid (InMemorySessionStore.sessions st) = Some s ∧
          userId s = u) ∧
  (deleted = true →
     JsMap.get sid (InMemorySessionStore.sessions st') = None ∧
     JsMap.get sid (InMemorySessionStore.messages st') = None ∧
     ∀ k, k ≠ sid →
          JsMap.get k (InMemorySessionStore.sessions st')
          = JsMap.get k (InMemorySessionStore.sessions st) ∧
          JsMap.get k (InMemorySessionStore.messages st')
          = JsMap.get k (InMemorySessionStore.messages st)) ∧
  (deleted = false → st' = st).
Proof.
  unfold InMemorySessionStore.deleteSession.
  destruct (JsMap.get sid _) as [s|] eqn:Hget.
  - destruct (String.eqb (userId s) u) eqn:Hu; simpl.
    + apply String.eqb_eq in Hu. split; [split; [by eauto|done]|].
      split; [|done].
      intros _. rewrite !JsMap_get_delete_eq. do 2 (split; [done|]).
      intros k Hk. by rewrite !JsMap_get_delete_ne.
    + apply String.eqb_neq in Hu. split; [|done].
      split; [done|]. by intros (s' & [= <-] & ?).
  - split; [|done]. split; [done|]. by intros (s' & [=] & ?).
Qed.

Lemma InMemory_deleteSession_twice sid u u' st :
  fst (InMemorySessionStore.deleteSession sid u st) = true →
  InMemorySessionStore.deleteSession sid u'
    (snd (InMemorySessionStore.deleteSession sid u st))
  = (false, snd (InMemorySessionStore.deleteSession sid u st)).
Proof.
  intros Hdel. apply InMemory_deleteSession_denied.
  apply InMemory_getSession_None. intros s.
  revert Hdel. unfold InMemorySessionStore.deleteSession.
  destruct (JsMap.get sid (InMemorySessionStore.sessions st)) as [s0|];
    [|done].
  destruct (String.eqb (userId s0) u); [|done]. simpl.
  by rewrite JsMap_get_delete_eq.
Qed.

(** C4, as the code has it.  [InMemorySessionStore.deleteSession] answers
    [true] exactly when the store holds a session under that id whose owner
    is the requester; it then removes the session and its message history and
    nothing else; otherwise it answers [false] and the store is unchanged;
    the same call repeated answers [false].  [SessionManager.deleteSession]
    is declared [void]: it does the same owner-checked removal and evaluates
    to [undefined] in every case.  Neither can throw: both are total
    functions of the state. *)
Theorem C4_deleteSession_result (sid u : string) :
  (∀ st,
      let '(deleted, st') := InMemorySessionStore.deleteSession sid u st in
      (deleted = true ↔
         ∃ s, JsMap.get sid (InMemorySessionStore.sessions st) = Some s ∧
              userId s = u) ∧
      (deleted = true →
         JsMap.get sid (InMemorySessionStore.sessions st') = None ∧
         JsMap.get sid (InMemorySessionStore.messages st') = None ∧
         ∀ k, k ≠ sid →
              JsMap.get k (InMemorySessionStore.sessions st')
              = JsMap.get k (InMemorySessionStore.sessions st) ∧
              JsMap.get k (InMemorySessionStore.messages st')
              = JsMap.get k (InMemorySessionStore.messages st)) ∧
      (deleted = false → st' = st) ∧
      fst (InMemorySessionStore.deleteSession sid u st') = false) ∧
  (∀ st,
      let '(value, st') := SessionManager.deleteSession sid u st in
      value = VUndefined ∧
      ((∃ s, JsMap.get sid (SessionManager.sessions st) = Some s ∧
             userId s = u) →
       JsMap.get sid (SessionManager.sessions st') = None ∧
       ∀ k, k ≠ sid →
            JsMap.get k (SessionManager.sessions st')
            = JsMap.get k (SessionManager.sessions st)) ∧
      ((∀ s, JsMap.get sid (SessionManager.sessions st) = Some s →
             userId s ≠ u) → st' = st)).
Proof.
  split; intros st.
  - pose proof (InMemory_deleteSession_spec sid u st) as Hspec.
    pose proof (InMemory_deleteSession_twice sid u u st) as Htwice.
    destruct (InMemorySessionStore.deleteSession sid u st) as [deleted st'].
    destruct Hspec as (Hiff & Hdel & Hkeep). simpl in Htwice.
    do 3 (split; [done|]).
    destruct deleted; [by rewrite Htwice|].
    rewrite (Hkeep eq_refl).
    destruct (InMemorySessionStore.deleteSession sid u st) as [d st2] eqn:Hd.
    simpl. destruct d; [|done].
    pose proof (InMemory_deleteSession_spec sid u st) as Hspec.
    rewrite Hd in Hspec. destruct Hspec as [[Hex _] _].
    symmetry. apply Hiff. by apply Hex.
  - unfold SessionManager.deleteSession.
    destruct (JsMap.get sid _) as [s|] eqn:Hget.
    + destruct (String.eqb (userId s) u) eqn:Hu.
      * split; [done|]. split.
        -- intros _. simpl. rewrite JsMap_get_delete_eq. split; [done|].
           intros k Hk. by rewrite JsMap_get_delete_ne.
        -- intros Hno. apply String.eqb_eq in Hu. by destruct (Hno s).
      * split; [done|]. split; [|done].
        apply String.eqb_neq in Hu. by intros (s' & [= <-] & ?).
    + split; [done|]. split; [|done]. by intros (s' & [=] & ?).
Qed.

(** C4 as stated fails on [SessionManager]: the session exists, belongs to
    the requester and is removed, and the call does not evaluate to [true]. *)
Lemma C4_deleteSession_void_counterexample :
  let st := snd (SessionManager.createSession 0 "user-1" SessionManager.init) in
  let '(value, st') := SessionManager.deleteSession "session-0" "user-1" st in
  is_Some (SessionManager.getSession "session-0" "user-1" st) ∧
  SessionManager.getSession "session-0" "user-1" st' = None ∧
  value ≠ VBool true.
Proof. vm_compute. split; [by eexists|]. split; [done|]. discriminate. Qed.

(** ** [ORDER BY] *)

Section OrderByFacts.
Context {A : Type} (le : A → A → bool).
Hypothesis le_total : ∀ a b, le a b = false → le b a = true.
Hypothesis le_trans : ∀ a b c, le a b = true → le b c = true → le a c = true.

Let R : relation A := λ a b, le a b = true.

Lemma insert_row_perm x l : insert_row le x l ≡ₚ x :: l.
Proof.
  induction l as [|y l IH]; simpl; [done|].
  destruct (le x y); [done|]. by rewrite IH, Permutation_swap.
Qed.

Lemma order_by_perm l : order_by le l ≡ₚ l.
Proof.
  induction l as [|x l IH]; simpl; [done|].
  by rewrite insert_row_perm, IH.
Qed.

Lemma insert_row_sorted x l :
  StronglySorted R l → StronglySorted R (insert_row le x l).
Proof.
  induction 1 as [|y l Hl IH Hy]; simpl.
  - by repeat constructor.
  - destruct (le x y) eqn:Hxy.
    + constructor; [by constructor|]. constructor; [done|].
      eapply Forall_impl; [exact Hy|]. intros z Hz. by eapply le_trans.
    + constructor; [done|]. rewrite insert_row_perm.
      constructor; [by apply le_total|done].
Qed.

Lemma order_by_sorted l : StronglySorted R (order_by le l).
Proof.
  induction l as [|x l IH]; simpl; [constructor|]. by apply insert_row_sorted.
Qed.

(** Rows already in order come back as they are. *)
Lemma order_by_sorted_id l : Sorted R l → order_by le l = l.
Proof.
  induction 1 as [|x l Hl IH Hhd]; simpl; [done|]. rewrite IH.
  destruct Hhd as [|y l Hxy]; simpl; [done|]. unfold R in Hxy. by rewrite Hxy.
Qed.

End OrderByFacts.

(** ** [listUserSessions] *)

Lemma elem_of_List_filter {A} (f : A → bool) (l : list A) x :
  x ∈ List.filter f l ↔ x ∈ l ∧ f x = true.
Proof. rewrite !list_elem_of_In. apply filter_In. Qed.

Lemma created_at_desc_total (a b : SessionDurableObject.session_row) :
  (SessionDurableObject.created_at b <=? SessionDurableObject.created_at a)%Z
  = false →
  (SessionDurableObject.created_at a <=? SessionDurableObject.created_at b)%Z
  = true.
Proof. rewrite Z.leb_gt, Z.leb_le. lia. Qed.

(** C8 (listing).  [listUserSessions(u)] returns exactly the sessions of the
    store whose [userId] is [u]: in [InMemorySessionStore] the filter of the
    map's values; in [SessionDurableObject], which persists [created_at],
    the rows of [u] and no others, each once, with [createdAt] descending
    (most recent first).  [OpenCodeService.listUserSessions] hands the
    store's answer through. *)
Theorem C8_listUserSessions (u : string) :
  (∀ st s,
      s ∈ InMemorySessionStore.listUserSessions u st ↔
      s ∈ JsMap.values (InMemorySessionStore.sessions st) ∧ userId s = u) ∧
  (∀ st,
      (∀ s, s ∈ SessionDurableObject.listUserSessions u st ↔
            s ∈ map SessionDurableObject.to_session
                    (SessionDurableObject.sessions st) ∧ userId s = u) ∧
      SessionDurableObject.listUserSessions u st ≡ₚ
        map SessionDurableObject.to_session
          (List.filter (λ r, String.eqb (SessionDurableObject.user_id r) u)
                       (SessionDurableObject.sessions st)) ∧
      StronglySorted (λ a b, (createdAt b ≤ createdAt a)%Z)
                     (SessionDurableObject.listUserSessions u st)) ∧
  (∀ sv,
      OpenCodeService.listUserSessions inMemoryStore u sv
      = (Ok (InMemorySessionStore.listUserSessions u
               (OpenCodeService.sessionDurableObject sv)), sv)).
Proof.
  split; [|split].
  - intros st s. unfold InMemorySessionStore.listUserSessions.
    rewrite elem_of_List_filter. by rewrite String.eqb_eq.
  - intros st. unfold SessionDurableObject.listUserSessions.
    split; [|split].
    + intros s. rewrite !list_elem_of_fmap. split.
      * intros (row & -> & Hrow). rewrite order_by_perm in Hrow.
        apply elem_of_List_filter in Hrow as [Hrow Hu].
        apply String.eqb_eq in Hu. split; [by exists row|done].
      * intros [(row & -> & Hrow) Hu]. exists row. split; [done|].
        rewrite order_by_perm. apply elem_of_List_filter.
        split; [done|]. by apply String.eqb_eq.
    + by rewrite order_by_perm.
    + apply (StronglySorted_fmap _
               (λ a b, (SessionDurableObject.created_at b
                        <=? SessionDurableObject.created_at a)%Z = true)).
      * intros a b Hab. simpl. by apply Z.leb_le.
      * apply order_by_sorted.
        -- intros a b. apply created_at_desc_total.
        -- intros a b c. rewrite !Z.leb_le. lia.
  - by intros [k st snt].
Qed.

(** The in-memory store keeps no order of its own: the list is in the
    insertion order of the [Map]. *)
Example InMemory_listUserSessions_example :
  let st :=
    InMemorySessionStore.run
      [InMemorySessionStore.OpCreate (InMemorySessionStore.mkClock 10 10)
         "user-1";
       InMemorySessionStore.OpCreate (InMemorySessionStore.mkClock 20 20)
         "user-2";
       InMemorySessionStore.OpCreate (InMemorySessionStore.mkClock 30 30)
         "user-1"]
      InMemorySessionStore.init in
  InMemorySessionStore.listUserSessions "user-1" st
  = [mkSession "opencode-10-0" "user-1" 10;
     mkSession "opencode-30-2" "user-1" 30].
Proof. vm_compute. reflexivity. Qed.

Example SessionDurableObject_listUserSessions_example :
  let st :=
    SessionDurableObject.mkState
      [SessionDurableObject.mkSessionRow "a" "user-1" 10;
       SessionDurableObject.mkSessionRow "b" "user-2" 20;
       SessionDurableObject.mkSessionRow "c" "user-1" 30] [] 1 in
  SessionDurableObject.listUserSessions "user-1" st
  = [mkSession "c" "user-1" 30; mkSession "a" "user-1" 10].
Proof. reflexivity. Qed.

(** ** Message history *)

Lemma InMemory_addMessage_Ok sid u m st st' :
  InMemorySessionStore.addMessage sid u m st = (Ok tt, st') →
  is_Some (InMemorySessionStore.getSession sid u st) ∧
  InMemorySessionStore.sessions st' = InMemorySessionStore.sessions st ∧
  InMemorySessionStore.stored_history sid st'
  = InMemorySessionStore.stored_history sid st ++ [m] ∧
  ∀ k, k ≠ sid →
       InMemorySessionStore.stored_history k st'
       = InMemorySessionStore.stored_history k st.
Proof.
  unfold InMemorySessionStore.addMessage.
  destruct (InMemorySessionStore.getSession sid u st) as [s|]; [|done].
  intros [= <-]. split; [by eexists|]. split; [done|].
  unfold InMemorySessionStore.stored_history. simpl. split.
  - by rewrite JsMap_get_set_eq.
  - intros k Hk. by rewrite JsMap_get_set_ne.
Qed.

(** An accepted [addMessage] appends to what the owner reads back. *)
Lemma InMemory_addMessage_history sid u m st st' :
  InMemorySessionStore.addMessage sid u m st = (Ok tt, st') →
  InMemorySessionStore.getConversationHistory sid u st'
  = InMemorySessionStore.getConversationHistory sid u st ++ [m].
Proof.
  intros Hadd.
  apply InMemory_addMessage_Ok in Hadd as ([s Hs] & Hsess & Hhist & _).
  unfold InMemorySessionStore.getConversationHistory.
  assert (InMemorySessionStore.getSession sid u st' = Some s) as ->.
  { revert Hs. unfold InMemorySessionStore.getSession. by rewrite Hsess. }
  by rewrite Hs, Hhist.
Qed.

Lemma created_at_asc_total (a b : SessionDurableObject.message_row) :
  (SessionDurableObject.message_created_at a
   <=? SessionDurableObject.message_created_at b)%Z = false →
  (SessionDurableObject.message_created_at b
   <=? SessionDurableObject.message_created_at a)%Z = true.
Proof. rewrite Z.leb_gt, Z.leb_le. lia. Qed.

Lemma Durable_addMessage_Ok now sid u m st st' :
  SessionDurableObject.addMessage now sid u m st = (Ok tt, st') →
  is_Some (SessionDurableObject.getSession sid u st) ∧
  SessionDurableObject.sessions st' = SessionDurableObject.sessions st ∧
  SessionDurableObject.messages st'
  = SessionDurableObject.messages st ++
    [SessionDurableObject.mkMessageRow (SessionDurableObject.message_seq st)
       sid (role m) (content m) now].
Proof.
  unfold SessionDurableObject.addMessage.
  destruct (SessionDurableObject.getSession sid u st) as [s|]; [|done].
  intros [= <-]. split; [by eexists|]. done.
Qed.

Lemma StronglySorted_weaken {A} (R1 R2 : relation A) l :
  (∀ a b, R1 a b → R2 a b) → StronglySorted R1 l → StronglySorted R2 l.
Proof.
  intros HR. induction 1 as [|x l Hl IH Hx]; constructor; [done|].
  eapply Forall_impl; [exact Hx|]. intros y. apply HR.
Qed.

(** What the durable store returns is in [created_at] order. *)
Lemma Durable_select_history_sorted sid st :
  StronglySorted
    (λ a b, (SessionDurableObject.message_created_at a
             ≤ SessionDurableObject.message_created_at b)%Z)
    (SessionDurableObject.select_history sid st).
Proof.
  unfold SessionDurableObject.select_history.
  eapply StronglySorted_weaken; [|apply order_by_sorted].
  - intros a b Hab. simpl in Hab. by apply Z.leb_le.
  - intros a b. apply created_at_asc_total.
  - intros a b c. rewrite !Z.leb_le. lia.
Qed.






(** ** The relay *)




Lemma Message_copy (l : list Message) :
  map (λ msg, mkMessage (role msg) (content msg)) l = l.
Proof. induction l as [|[r c] l IH]; simpl; [done|]. by rewrite IH. Qed.

Lemma callOpenCodeAPI_eq {S} upstream messages (sv : OpenCodeService.state S) :
  OpenCodeService.callOpenCodeAPI upstream messages sv
  = (Ok (reply_of
           (upstream (completion_request (OpenCodeService.apiKey sv) messages))),
     OpenCodeService.mkState (OpenCodeService.apiKey sv)
       (OpenCodeService.sessionDurableObject sv)
       (OpenCodeService.sent sv
        ++ [completion_request (OpenCodeService.apiKey sv) messages])).
Proof.
  unfold OpenCodeService.callOpenCodeAPI, reply_of, completion_request.
  rewrite Message_copy.
  by destruct (OpenCodeService.read_response _).
Qed.

(** [sendPrompt] on an owned session of the in-memory store, step by step:
    the user message is stored, the stored history goes out in one request,
    and whatever [callOpenCodeAPI] resolves to is stored as the assistant
    message and returned. *)
Lemma sendPrompt_inMemory upstream sid u prompt sv s :
  InMemorySessionStore.getSession sid u
    (OpenCodeService.sessionDurableObject sv) = Some s →
  let before :=
    InMemorySessionStore.getConversationHistory sid u
      (OpenCodeService.sessionDurableObject sv) in
  let req :=
    completion_request (OpenCodeService.apiKey sv)
      (before ++ [mkMessage "user" prompt]) in
  let reply := reply_of (upstream req) in
  ∃ st',
    OpenCodeService.sendPrompt inMemoryStore upstream sid u prompt sv
    = (Ok (OpenCodeService.mkPromptResponse reply),
       OpenCodeService.mkState (OpenCodeService.apiKey sv) st'
         (OpenCodeService.sent sv ++ [req])) ∧
    InMemorySessionStore.sessions st'
    = InMemorySessionStore.sessions (OpenCodeService.sessionDurableObject sv) ∧
    InMemorySessionStore.getConversationHistory sid u st'
    = before ++ [mkMessage "user" prompt; mkMessage "assistant" reply].
Proof.
  destruct sv as [key st snt]. simpl. intros Hget.
  destruct (InMemorySessionStore.addMessage sid u (mkMessage "user" prompt) st)
    as [r1 st1] eqn:Hadd1.
  assert (r1 = Ok tt) as ->.
  { revert Hadd1. unfold InMemorySessionStore.addMessage. rewrite Hget.
    by intros [= <- _]. }
  pose proof (InMemory_addMessage_history _ _ _ _ _ Hadd1) as Hh1.
  pose proof (InMemory_addMessage_Ok _ _ _ _ _ Hadd1) as (_ & Hs1 & _).
  assert (InMemorySessionStore.getSession sid u st1 = Some s) as Hget1.
  { revert Hget. unfold InMemorySessionStore.getSession. by rewrite Hs1. }
  rewrite <-Hh1.
  set (reply := reply_of _).
  destruct (InMemorySessionStore.addMessage sid u
              (mkMessage "assistant" reply) st1) as [r2 st2] eqn:Hadd2.
  assert (r2 = Ok tt) as ->.
  { revert Hadd2. unfold InMemorySessionStore.addMessage. rewrite Hget1.
    by intros [= <- _]. }
  pose proof (InMemory_addMessage_history _ _ _ _ _ Hadd2) as Hh2.
  pose proof (InMemory_addMessage_Ok _ _ _ _ _ Hadd2) as (_ & Hs2 & _).
  exists st2. split; [|split].
  - unfold OpenCodeService.sendPrompt, bind, OpenCodeService.on_store,
      reading, ret. simpl.
    rewrite Hget. simpl. rewrite Hadd1.
    rewrite callOpenCodeAPI_eq. simpl.
    fold reply. by rewrite Hadd2.
  - by rewrite Hs2, Hs1.
  - by rewrite Hh2, Hh1, <-app_assoc.
Qed.






(** ** [POST /api/prompt] *)

Lemma OpenCodeService_getSession_inMemory sid u sv :
  OpenCodeService.getSession inMemoryStore sid u sv
  = (Ok (InMemorySessionStore.getSession sid u
           (OpenCodeService.sessionDurableObject sv)), sv).
Proof. by destruct sv. Qed.





(** ** Token checks *)

Lemma split_sep_free sep s : sep_free sep s = true → Js.split sep s = [s].
Proof.
  induction s as [|c s IH]; simpl; [done|].
  destruct (Ascii.eqb c sep); simpl; [done|]. intros Hs. by rewrite IH.
Qed.

Lemma split_app sep a b :
  sep_free sep a = true →
  Js.split sep (a +:+ String sep b) = a :: Js.split sep b.
Proof.
  induction a as [|c a IH]; intros Ha.
  - rewrite string_app_nil_l. simpl. by rewrite Ascii.eqb_refl.
  - rewrite string_app_cons. simpl in *.
    destruct (Ascii.eqb c sep); simpl in *; [done|]. by rewrite IH.
Qed.

Lemma prefix_app a b : String.prefix a (a +:+ b) = true.
Proof.
  induction a as [|c a IH]; [by destruct b|].
  rewrite string_app_cons. simpl. by destruct (ascii_dec c c).
Qed.

Lemma bearer_header_parts h p sg :
  three_segments h p sg →
  Js.truthy (bearer_header h p sg) = true ∧
  Js.startsWith (bearer_header h p sg) "Bearer " = true ∧
  Js.split "." (Js.substring_from 7 (bearer_header h p sg)) = [h; p; sg].
Proof.
  intros (Hh & Hp & Hsg). split; [reflexivity|].
  split; [apply prefix_app|].
  change (Js.substring_from 7 (bearer_header h p sg))
    with (h +:+ String "." (p +:+ String "." sg)).
  by rewrite !split_app, split_sep_free.
Qed.

Section VerifierFacts.
Variable decode : string → result Clerk.ClerkJwtPayload.
Variable js_String : thrown → string.
Variables (h p sg : string) (payload : Clerk.ClerkJwtPayload).
Hypothesis segments : three_segments h p sg.
Hypothesis decoded : decode p = Ok payload.

Lemma verifyClerkToken_decoded date_now :
  Clerk.verifyClerkToken decode (bearer_header h p sg) date_now
  = if Clerk.exp_before payload (Clerk.seconds date_now) then None
    else match Clerk.iss payload with
         | None => None
         | Some issuer =>
             if negb (Js.startsWith issuer "https://clerk.") then None
             else Clerk.sub payload
         end.
Proof.
  destruct (bearer_header_parts h p sg segments) as (Ht & Hs & Hparts).
  unfold Clerk.verifyClerkToken. rewrite Ht, Hs, Hparts. simpl.
  by rewrite decoded.
Qed.

Lemma authMiddleware_decoded date_now :
  Clerk.authMiddleware decode (Some (bearer_header h p sg)) date_now
  = if Clerk.exp_truthy_and_before payload (Clerk.seconds date_now)
    then Clerk.Unauthorized "token_expired" None
    else if Clerk.issuer_rejected payload
    then Clerk.Unauthorized "invalid_issuer" None
    else match Clerk.sub payload with
         | Some userId =>
             if Js.truthy userId then Clerk.Next userId
             else Clerk.Unauthorized "no_user_id" None
         | None => Clerk.Unauthorized "no_user_id" None
         end.
Proof.
  destruct (bearer_header_parts h p sg segments) as (Ht & Hs & Hparts).
  unfold Clerk.authMiddleware. simpl default. rewrite Ht, Hs, Hparts. simpl.
  by rewrite decoded.
Qed.

Lemma authMiddleware_hono_decoded date_now :
  Clerk.authMiddleware_hono decode js_String (Some (bearer_header h p sg))
    date_now
  = if Clerk.exp_before payload (Clerk.seconds date_now)
    then Clerk.Unauthorized "token_expired" None
    else if Clerk.issuer_rejected payload
    then Clerk.Unauthorized "invalid_issuer" (Clerk.iss payload)
    else match Clerk.sub payload with
         | Some userId =>
             if Js.truthy userId then Clerk.Next userId
             else Clerk.Unauthorized "no_user_id" None
         | None => Clerk.Unauthorized "no_user_id" None
         end.
Proof.
  destruct (bearer_header_parts h p sg segments) as (Ht & Hs & Hparts).
  unfold Clerk.authMiddleware_hono. simpl default.
  rewrite Ht, Hs, Hparts. simpl. by rewrite decoded.
Qed.
End VerifierFacts.

(** C2, as the code has it.  For a three-segment bearer credential whose
    payload has [exp = e], with [now = floor(Date.now() / 1000)]:
    - when [e < now], [verifyClerkToken] returns [null] and the older
      middleware answers 401 [token_expired]; so does the Worker's
      middleware when [e] is not [0];
    - when [now ≤ e], in particular when [e = now], the expiry check lets the
      credential pass: with an accepted issuer and a non-empty subject [s],
      [verifyClerkToken] returns [s] and both middlewares continue as [s]. *)
Theorem C2_token_expiry decode js_String h p sg payload date_now e :
  three_segments h p sg →
  decode p = Ok payload →
  Clerk.exp payload = Some e →
  ((e < Clerk.seconds date_now)%Z →
     Clerk.verifyClerkToken decode (bearer_header h p sg) date_now = None ∧
     Clerk.authMiddleware_hono decode js_String
       (Some (bearer_header h p sg)) date_now
     = Clerk.Unauthorized "token_expired" None ∧
     (e ≠ 0%Z →
        Clerk.authMiddleware decode (Some (bearer_header h p sg)) date_now
        = Clerk.Unauthorized "token_expired" None)) ∧
  ((Clerk.seconds date_now ≤ e)%Z →
     ∀ s, Clerk.sub payload = Some s → s ≠ "" →
       (∀ issuer, Clerk.iss payload = Some issuer →
                  Js.startsWith issuer "https://clerk." = true →
          Clerk.verifyClerkToken decode (bearer_header h p sg) date_now
          = Some s) ∧
       (Clerk.issuer_rejected payload = false →
          Clerk.authMiddleware decode (Some (bearer_header h p sg)) date_now
          = Clerk.Next s ∧
          Clerk.authMiddleware_hono decode js_String
            (Some (bearer_header h p sg)) date_now
          = Clerk.Next s)).
Proof.
  intros Hseg Hdec Hexp.
  rewrite (verifyClerkToken_decoded decode h p sg payload Hseg Hdec).
  rewrite (authMiddleware_decoded decode h p sg payload Hseg Hdec).
  rewrite (authMiddleware_hono_decoded decode js_String h p sg payload
             Hseg Hdec).
  unfold Clerk.exp_before, Clerk.exp_truthy_and_before. rewrite Hexp.
  split.
  - intros Hlt. apply Z.ltb_lt in Hlt. rewrite Hlt. do 2 (split; [done|]).
    intros He. apply Z.eqb_neq in He. by rewrite He.
  - intros Hge s Hsub Hs. apply Z.ltb_ge in Hge. rewrite Hge, andb_false_r.
    assert (Js.truthy s = true) as Hts by by destruct s.
    split.
    + intros issuer -> Hiss. by rewrite Hiss.
    + intros ->. by rewrite Hsub, Hts.
Qed.

Lemma C2_token_expiry_witness :
  let decode := sample_decode 1700000000 in
  (Clerk.verifyClerkToken decode (bearer_header "header" "expired" "signature")
     1700000000000 = None ∧
   Clerk.authMiddleware decode
     (Some (bearer_header "header" "expired" "signature")) 1700000000000
   = Clerk.Unauthorized "token_expired" None) ∧
  (Clerk.verifyClerkToken decode (bearer_header "header" "boundary" "signature")
     1700000000000 = Some "user-1" ∧
   Clerk.authMiddleware decode
     (Some (bearer_header "header" "boundary" "signature")) 1700000000000
   = Clerk.Next "user-1").
Proof.
  intros decode.
  assert (three_segments "header" "expired" "signature") as Hseg1
    by (repeat split; reflexivity).
  assert (three_segments "header" "boundary" "signature") as Hseg2
    by (repeat split; reflexivity).
  pose proof (C2_token_expiry decode sample_js_String "header" "expired"
                "signature" _ 1700000000000 1000000000
                Hseg1 eq_refl eq_refl) as [Hexpired _].
  pose proof (C2_token_expiry decode sample_js_String "header" "boundary"
                "signature" _ 1700000000000 1700000000
                Hseg2 eq_refl eq_refl) as [_ Hboundary].
  split.
  - destruct Hexpired as (Hv & _ & Hm); [vm_compute; reflexivity|].
    split; [exact Hv|]. apply Hm. discriminate.
  - destruct (Hboundary ltac:(vm_compute; discriminate) "user-1" eq_refl
                ltac:(discriminate)) as [Hv Hm].
    split.
    + by apply (Hv "https://clerk.example.com").
    + by apply Hm.
Defined.

(** C2 as stated fails at the boundary: the payload's [exp] equals the
    current time in seconds, and the credential is accepted. *)
Lemma C2_expiry_boundary_counterexample :
  let date_now := 1700000000123%Z in
  let decode := sample_decode (Clerk.seconds date_now) in
  let header := bearer_header "header" "boundary" "signature" in
  three_segments "header" "boundary" "signature" ∧
  (∃ payload, decode "boundary" = Ok payload ∧
              Clerk.exp payload = Some (Clerk.seconds date_now)) ∧
  Clerk.verifyClerkToken decode header date_now = Some "user-1" ∧
  Clerk.authMiddleware decode (Some header) date_now = Clerk.Next "user-1".
Proof.
  vm_compute. split; [done|]. split; [by eexists|]. done.
Qed.

(** C10 (no [exp]).  A three-segment credential whose payload has no [exp]
    field is not rejected as expired: with a non-empty subject [s],
    [verifyClerkToken] returns [s] when the issuer starts with
    [https://clerk.], and both middlewares continue as [s] when their issuer
    check passes. *)
Theorem C10_missing_exp decode js_String h p sg payload date_now s :
  three_segments h p sg →
  decode p = Ok payload →
  Clerk.exp payload = None →
  Clerk.sub payload = Some s →
  s ≠ "" →
  (∀ issuer, Clerk.iss payload = Some issuer →
             Js.startsWith issuer "https://clerk." = true →
     Clerk.verifyClerkToken decode (bearer_header h p sg) date_now = Some s) ∧
  (Clerk.issuer_rejected payload = false →
     Clerk.authMiddleware decode (Some (bearer_header h p sg)) date_now
     = Clerk.Next s ∧
     Clerk.authMiddleware_hono decode js_String
       (Some (bearer_header h p sg)) date_now
     = Clerk.Next s).
Proof.
  intros Hseg Hdec Hexp Hsub Hs.
  rewrite (verifyClerkToken_decoded decode h p sg payload Hseg Hdec).
  rewrite (authMiddleware_decoded decode h p sg payload Hseg Hdec).
  rewrite (authMiddleware_hono_decoded decode js_String h p sg payload
             Hseg Hdec).
  unfold Clerk.exp_before, Clerk.exp_truthy_and_before. rewrite Hexp.
  assert (Js.truthy s = true) as Hts by by destruct s.
  split.
  - intros issuer -> Hiss. by rewrite Hiss.
  - intros ->. by rewrite Hsub, Hts.
Qed.

Lemma C10_missing_exp_witness :
  let decode := sample_decode 1700000000 in
  let header := bearer_header "header" "noexp" "signature" in
  Clerk.verifyClerkToken decode header 1700000000000 = Some "user-1" ∧
  Clerk.authMiddleware decode (Some header) 1700000000000
  = Clerk.Next "user-1" ∧
  Clerk.authMiddleware_hono decode sample_js_String (Some header)
    1700000000000 = Clerk.Next "user-1".
Proof.
  intros decode header.
  assert (three_segments "header" "noexp" "signature") as Hseg
    by (repeat split; reflexivity).
  assert ("user-1" ≠ "") as Hs by discriminate.
  destruct (C10_missing_exp decode sample_js_String "header" "noexp"
              "signature" _ 1700000000000 "user-1" Hseg eq_refl eq_refl
              eq_refl Hs) as [Hv Hm].
  split; [by apply (Hv "https://clerk.example.com")|]. by apply Hm.
Defined.

(** ** [SessionDurableObject]: the same contract on the SQL tables *)

Lemma List_filter_nil {A} (f : A → bool) l :
  List.filter f l = [] ↔ ∀ x, x ∈ l → f x = false.
Proof.
  induction l as [|y l IH]; simpl.
  - split; [|done]. intros _ x Hx. by inv Hx.
  - destruct (f y) eqn:Hy.
    + split; [done|]. intros H. specialize (H y ltac:(left)). congruence.
    + rewrite IH. split.
      * intros H x Hx. apply elem_of_cons in Hx as [->|Hx]; auto.
      * intros H x Hx. apply H. by right.
Qed.

Lemma Durable_getSession_None sid u st :
  SessionDurableObject.getSession sid u st = None ↔
  ∀ row, row ∈ SessionDurableObject.sessions st →
         SessionDurableObject.row_id row = sid →
         SessionDurableObject.user_id row ≠ u.
Proof.
  unfold SessionDurableObject.getSession.
  destruct (List.filter _ _) as [|row rows] eqn:Hf.
  - split; [|done]. intros _ row Hrow <- <-.
    pose proof (proj1 (List_filter_nil _ _) Hf row Hrow) as Hrow'.
    simpl in Hrow'. by rewrite !String.eqb_refl in Hrow'.
  - split; [done|]. intros H.
    assert (row ∈ List.filter
              (λ r, String.eqb (SessionDurableObject.row_id r) sid
                    && String.eqb (SessionDurableObject.user_id r) u)
              (SessionDurableObject.sessions st)) as Hin
      by (rewrite Hf; left).
    apply elem_of_List_filter in Hin as [Hin Hrow].
    apply andb_true_iff in Hrow as [Hid Hu].
    apply String.eqb_eq in Hid, Hu. by destruct (H row Hin Hid).
Qed.

Lemma Durable_getSession_Some sid u st s :
  SessionDurableObject.getSession sid u st = Some s →
  ∃ row, row ∈ SessionDurableObject.sessions st ∧
         SessionDurableObject.row_id row = sid ∧
         SessionDurableObject.user_id row = u ∧
         s = SessionDurableObject.to_session row.
Proof.
  unfold SessionDurableObject.getSession.
  destruct (List.filter _ _) as [|row rows] eqn:Hf; [done|].
  intros [= <-]. exists row.
  assert (row ∈ List.filter
            (λ r, String.eqb (SessionDurableObject.row_id r) sid
                  && String.eqb (SessionDurableObject.user_id r) u)
            (SessionDurableObject.sessions st)) as Hin
    by (rewrite Hf; left).
  apply elem_of_List_filter in Hin as [Hin Hrow].
  apply andb_true_iff in Hrow as [Hid Hu].
  apply String.eqb_eq in Hid, Hu. done.
Qed.

(** While every row under the id belongs to [u1], another user gets the
    same three answers as from the in-memory store. *)
Lemma Durable_ownership_isolation i u1 u2 st :
  u1 ≠ u2 →
  (∀ row, row ∈ SessionDurableObject.sessions st →
          SessionDurableObject.row_id row = i →
          SessionDurableObject.user_id row = u1) →
  SessionDurableObject.getSession i u2 st = None ∧
  SessionDurableObject.deleteSession i u2 st = (false, st) ∧
  SessionDurableObject.getConversationHistory i u2 st = [].
Proof.
  intros Hne Hown.
  assert (SessionDurableObject.getSession i u2 st = None) as Hget.
  { apply Durable_getSession_None. intros row Hrow Hid.
    by rewrite (Hown row Hrow Hid). }
  unfold SessionDurableObject.deleteSession,
    SessionDurableObject.getConversationHistory. by rewrite Hget.
Qed.

(** A session the durable store has created is found under its id by its
    owner, and is the only row under that id. *)
Lemma Durable_round_trip e u st s st' :
  SessionDurableObject.createSession e u st = (Ok s, st') →
  SessionDurableObject.getSession (id s) u st' = Some s ∧
  id s = SessionDurableObject.session_id_of e ∧ userId s = u ∧
  ∀ row, row ∈ SessionDurableObject.sessions st' →
         SessionDurableObject.row_id row = id s →
         SessionDurableObject.user_id row = u.
Proof.
  unfold SessionDurableObject.createSession, bind,
    SessionDurableObject.insert_session, ret. simpl.
  destruct (existsb _ _) eqn:Hex; [done|]. intros [= <- <-]. simpl.
  assert (∀ row, row ∈ SessionDurableObject.sessions st →
                 String.eqb (SessionDurableObject.row_id row)
                   (SessionDurableObject.session_id_of e) = false) as Hfresh.
  { intros row Hrow.
    destruct (String.eqb _ _) eqn:Hid; [|done].
    assert (existsb
              (λ r, String.eqb (SessionDurableObject.row_id r)
                      (SessionDurableObject.session_id_of e))
              (SessionDurableObject.sessions st) = true) as Hex'.
    { apply existsb_exists. exists row. split; [|done].
      by apply list_elem_of_In. }
    congruence. }
  split; [|split; [done|split; [done|]]].
  - unfold SessionDurableObject.getSession. simpl.
    rewrite List.filter_app. simpl. rewrite !String.eqb_refl. simpl.
    replace (List.filter _ (SessionDurableObject.sessions st)) with
      (@nil SessionDurableObject.session_row); [done|].
    symmetry. apply List_filter_nil. intros row Hrow.
    by rewrite (Hfresh row Hrow).
  - intros row Hrow Hid. apply elem_of_app in Hrow as [Hrow|Hrow].
    + apply Hfresh in Hrow. apply String.eqb_neq in Hrow. done.
    + apply list_elem_of_singleton in Hrow. by subst row.
Qed.

(** [deleteSession] on the tables: [true] exactly for a row of the
    requester under that id; the row and, by the cascade, its messages are
    then gone; otherwise nothing changes. *)
Lemma Durable_deleteSession_spec sid u st :
  let '(deleted, st') := SessionDurableObject.deleteSession sid u st in
  (deleted = true ↔
     ∃ row, row ∈ SessionDurableObject.sessions st ∧
            SessionDurableObject.row_id row = sid ∧
            SessionDurableObject.user_id row = u) ∧
  (deleted = true →
     (∀ row, row ∈ SessionDurableObject.sessions st' →
             SessionDurableObject.row_id row ≠ sid) ∧
     (∀ m, m ∈ SessionDurableObject.messages st' →
           SessionDurableObject.session_id m ≠ sid)) ∧
  (deleted = false → st' = st).
Proof.
  unfold SessionDurableObject.deleteSession.
  destruct (SessionDurableObject.getSession sid u st) as [s|] eqn:Hget.
  - split; [|split; [|done]].
    + split; [|done]. intros _.
      apply Durable_getSession_Some in Hget as (row & ? & ? & ? & _).
      by exists row.
    + intros _. simpl. split.
      * intros row Hrow. apply elem_of_List_filter in Hrow as [_ Hrow].
        apply negb_true_iff in Hrow. by apply String.eqb_neq.
      * intros m Hm. apply elem_of_List_filter in Hm as [_ Hm].
        apply negb_true_iff in Hm. by apply String.eqb_neq.
  - split; [|done]. split; [done|]. intros (row & Hrow & Hid & Hu).
    rewrite Durable_getSession_None in Hget. by destruct (Hget row Hrow Hid).
Qed.

(* ------------------------------------------------------------------ *)
(** * Part III: further properties of the code                         *)
(* ------------------------------------------------------------------ *)

#[local] Set Warnings "-clear-no-such-hyp".

(** ** [JsMap]: keys *)

Section JsMapKeys.
Context {V : Type}.
Implicit Types (m : JsMap.t V) (k : string) (v : V).

Lemma JsMap_get_None_keys k m : JsMap.get k m = None ↔ k ∉ JsMap_keys m.
Proof.
  unfold JsMap_keys. induction m as [|[k' v'] m IH]; simpl.
  - split; [|done]. intros _ H. by inv H.
  - destruct (String.eqb k' k) eqn:Hk.
    + apply String.eqb_eq in Hk as ->. split; [done|].
      intros H. destruct H. left.
    + apply String.eqb_neq in Hk. rewrite IH, not_elem_of_cons. naive_solver.
Qed.

Lemma JsMap_keys_set k v m x :
  x ∈ JsMap_keys (JsMap.set k v m) ↔ x = k ∨ x ∈ JsMap_keys m.
Proof.
  unfold JsMap_keys. induction m as [|[k' v'] m IH]; simpl.
  - rewrite list_elem_of_singleton. split; [by left|]. intros [->|H]; [done|].
    by inv H.
  - destruct (String.eqb k' k) eqn:Hk; simpl.
    + apply String.eqb_eq in Hk as ->. rewrite !elem_of_cons. naive_solver.
    + rewrite !elem_of_cons, IH. naive_solver.
Qed.

Lemma JsMap_keys_delete k m x :
  x ∈ JsMap_keys (JsMap.delete k m) ↔ x ≠ k ∧ x ∈ JsMap_keys m.
Proof.
  unfold JsMap_keys. induction m as [|[k' v'] m IH]; simpl.
  - split; [intros H; by inv H|]. intros [_ H]. by inv H.
  - destruct (String.eqb k' k) eqn:Hk; simpl.
    + apply String.eqb_eq in Hk as ->. rewrite IH, elem_of_cons. naive_solver.
    + apply String.eqb_neq in Hk. rewrite !elem_of_cons, IH. naive_solver.
Qed.

Lemma JsMap_set_NoDup k v m :
  NoDup (JsMap_keys m) → NoDup (JsMap_keys (JsMap.set k v m)).
Proof.
  induction m as [|[k' v'] m IH]; simpl.
  - intros _. apply NoDup_singleton.
  - intros Hnd. apply NoDup_cons in Hnd as [Hk' Hnd].
    destruct (String.eqb k' k) eqn:Hk; simpl.
    + apply String.eqb_eq in Hk as ->. by apply NoDup_cons.
    + apply String.eqb_neq in Hk. apply NoDup_cons. split; [|by apply IH].
      fold (JsMap_keys (JsMap.set k v m)). rewrite JsMap_keys_set.
      naive_solver.
Qed.

Lemma JsMap_delete_NoDup k m :
  NoDup (JsMap_keys m) → NoDup (JsMap_keys (JsMap.delete k m)).
Proof.
  induction m as [|[k' v'] m IH]; simpl; [done|].
  intros Hnd. apply NoDup_cons in Hnd as [Hk' Hnd].
  destruct (String.eqb k' k); simpl; [by apply IH|].
  apply NoDup_cons. split; [|by apply IH].
  fold (JsMap_keys (JsMap.delete k m)). rewrite JsMap_keys_delete.
  naive_solver.
Qed.

(** With distinct keys, the values are what [get] can return. *)
Lemma JsMap_values_get m v :
  NoDup (JsMap_keys m) →
  v ∈ JsMap.values m ↔ ∃ k, JsMap.get k m = Some v.
Proof.
  intros Hnd. split; [|intros [k Hk]; by eapply JsMap_get_values].
  unfold JsMap.values. induction m as [|[k' v'] m IH]; simpl.
  - intros H. by inv H.
  - apply NoDup_cons in Hnd as [Hk' Hnd]. rewrite elem_of_cons.
    intros [->|Hv].
    + exists k'. by rewrite String.eqb_refl.
    + destruct (IH Hnd Hv) as [k Hk]. exists k.
      destruct (String.eqb k' k) eqn:Heq; [|done].
      apply String.eqb_eq in Heq as ->.
      assert (JsMap.get k m ≠ None) as Hsome by congruence.
      rewrite JsMap_get_None_keys in Hsome. by destruct Hsome.
Qed.

Lemma JsMap_values_delete k m v :
  NoDup (JsMap_keys m) →
  v ∈ JsMap.values (JsMap.delete k m) ↔
  ∃ k', k' ≠ k ∧ JsMap.get k' m = Some v.
Proof.
  intros Hnd. rewrite JsMap_values_get by by apply JsMap_delete_NoDup.
  split.
  - intros [k' Hk']. exists k'. destruct (decide (k = k')) as [->|Hne].
    + by rewrite JsMap_get_delete_eq in Hk'.
    + by rewrite JsMap_get_delete_ne in Hk'.
  - intros (k' & Hne & Hk'). exists k'. by rewrite JsMap_get_delete_ne.
Qed.
End JsMapKeys.

(** ** [InMemorySessionStore]: what every reachable state satisfies *)

Lemma InMemory_wf_init : InMemory_wf InMemorySessionStore.init.
Proof. split; simpl; try done. apply NoDup_nil_2. Qed.

Lemma InMemory_wf_create clk u st :
  InMemory_wf st →
  InMemory_wf (snd (InMemorySessionStore.createSession clk u st)).
Proof.
  intros [Hnd Hid Hc Hh]. split; simpl.
  - by apply JsMap_set_NoDup.
  - intros k s.
    destruct (decide (InMemorySessionStore.session_id
                        (InMemorySessionStore.now_id clk)
                        (InMemorySessionStore.sessionCounter st) = k))
      as [<-|Hne].
    + rewrite JsMap_get_set_eq. by intros [= <-].
    + rewrite JsMap_get_set_ne by done. apply Hid.
  - intros k s.
    destruct (decide (InMemorySessionStore.session_id
                        (InMemorySessionStore.now_id clk)
                        (InMemorySessionStore.sessionCounter st) = k))
      as [<-|Hne].
    + intros _. do 2 eexists. split; [done|]. lia.
    + rewrite JsMap_get_set_ne by done. intros Hk.
      destruct (Hc k s Hk) as (now & c & -> & Hlt).
      exists now, c. split; [done|]. lia.
  - intros k.
    destruct (decide (InMemorySessionStore.session_id
                        (InMemorySessionStore.now_id clk)
                        (InMemorySessionStore.sessionCounter st) = k))
      as [<-|Hne].
    + by rewrite !JsMap_get_set_eq.
    + by rewrite !JsMap_get_set_ne.
Qed.

Lemma InMemory_wf_delete sid u st :
  InMemory_wf st →
  InMemory_wf (snd (InMemorySessionStore.deleteSession sid u st)).
Proof.
  intros Hwf. unfold InMemorySessionStore.deleteSession.
  destruct (JsMap.get sid _) as [s|]; [|done].
  destruct (String.eqb (userId s) u); [|done].
  destruct Hwf as [Hnd Hid Hc Hh]. split; simpl.
  - by apply JsMap_delete_NoDup.
  - intros k s'. destruct (decide (sid = k)) as [->|Hne].
    + by rewrite JsMap_get_delete_eq.
    + rewrite JsMap_get_delete_ne by done. apply Hid.
  - intros k s'. destruct (decide (sid = k)) as [->|Hne].
    + by rewrite JsMap_get_delete_eq.
    + rewrite JsMap_get_delete_ne by done. apply Hc.
  - intros k. destruct (decide (sid = k)) as [->|Hne].
    + by rewrite !JsMap_get_delete_eq.
    + by rewrite !JsMap_get_delete_ne.
Qed.

Lemma InMemory_wf_addMessage sid u m st :
  InMemory_wf st →
  InMemory_wf (snd (InMemorySessionStore.addMessage sid u m st)).
Proof.
  intros Hwf. unfold InMemorySessionStore.addMessage.
  destruct (InMemorySessionStore.getSession sid u st) as [s|] eqn:Hget;
    [|done].
  apply InMemory_getSession_Some in Hget as [Hget _].
  destruct Hwf as [Hnd Hid Hc Hh]. split; simpl; try done.
  intros k. destruct (decide (sid = k)) as [->|Hne].
  - rewrite JsMap_get_set_eq, Hget. done.
  - rewrite JsMap_get_set_ne by done. apply Hh.
Qed.

Lemma InMemory_wf_step o st :
  InMemory_wf st → InMemory_wf (InMemorySessionStore.step o st).
Proof.
  destruct o as [clk u|sid u|sid u m].
  - apply InMemory_wf_create.
  - apply InMemory_wf_delete.
  - apply InMemory_wf_addMessage.
Qed.

(** The invariant of the in-memory store. *)
Theorem InMemory_wf_run ops :
  InMemory_wf (InMemorySessionStore.run ops InMemorySessionStore.init).
Proof.
  unfold InMemorySessionStore.run.
  assert (∀ st, InMemory_wf st →
                InMemory_wf (fold_left (λ s o, InMemorySessionStore.step o s)
                               ops st)) as Hgen.
  { induction ops as [|o ops IH]; intros st Hst; [done|].
    simpl. by apply IH, InMemory_wf_step. }
  apply Hgen, InMemory_wf_init.
Qed.

Lemma InMemory_list_get st u s :
  InMemory_wf st →
  s ∈ InMemorySessionStore.listUserSessions u st ↔
  InMemorySessionStore.getSession (id s) u st = Some s.
Proof.
  intros [Hnd Hid _ _]. unfold InMemorySessionStore.listUserSessions.
  rewrite elem_of_List_filter, String.eqb_eq, InMemory_getSession_Some.
  rewrite JsMap_values_get by done. split.
  - intros [[k Hk] Hu]. by rewrite (Hid k s Hk).
  - intros [Hget Hu]. split; [by eexists|done].
Qed.

(** X1.  The listing and the lookup agree: in every reachable state,
    [listUserSessions(u)] holds exactly the sessions that [getSession] returns
    to [u] under their own id. *)
Theorem InMemory_list_get_consistent ops u s :
  let st := InMemorySessionStore.run ops InMemorySessionStore.init in
  s ∈ InMemorySessionStore.listUserSessions u st ↔
  InMemorySessionStore.getSession (id s) u st = Some s.
Proof. apply InMemory_list_get, InMemory_wf_run. Qed.

(** X2.  No orphans either way: in every reachable state the store keeps a
    message history for an id exactly when it keeps a session under it, so a
    deleted session leaves no history behind and no session lacks one. *)
Theorem InMemory_history_iff_session ops k :
  let st := InMemorySessionStore.run ops InMemorySessionStore.init in
  is_Some (JsMap.get k (InMemorySessionStore.messages st)) ↔
  is_Some (JsMap.get k (InMemorySessionStore.sessions st)).
Proof.
  intros st. destruct (InMemory_wf_run ops) as [_ _ _ Hh]. fold st in Hh.
  rewrite <-!not_eq_None_Some. by rewrite Hh.
Qed.

Lemma InMemory_getSession_frame k v st st' :
  JsMap.get k (InMemorySessionStore.sessions st')
  = JsMap.get k (InMemorySessionStore.sessions st) →
  InMemorySessionStore.getSession k v st'
  = InMemorySessionStore.getSession k v st.
Proof. unfold InMemorySessionStore.getSession. by intros ->. Qed.

Lemma InMemory_history_frame k v st st' :
  JsMap.get k (InMemorySessionStore.sessions st')
  = JsMap.get k (InMemorySessionStore.sessions st) →
  JsMap.get k (InMemorySessionStore.messages st')
  = JsMap.get k (InMemorySessionStore.messages st) →
  InMemorySessionStore.getConversationHistory k v st'
  = InMemorySessionStore.getConversationHistory k v st.
Proof.
  intros Hs Hm.
  unfold InMemorySessionStore.getConversationHistory,
    InMemorySessionStore.stored_history.
  by rewrite (InMemory_getSession_frame k v st st' Hs), Hm.
Qed.

(** X3.  [createSession] never reuses an id: in every reachable state the id it
    makes is held by no session, the new session starts with an empty
    history and is listed for its owner, and every session that existed
    keeps its owner-checked lookup and its history. *)
Theorem InMemory_createSession_fresh ops clk u :
  let st := InMemorySessionStore.run ops InMemorySessionStore.init in
  let s := fst (InMemorySessionStore.createSession clk u st) in
  let st' := snd (InMemorySessionStore.createSession clk u st) in
  JsMap.get (id s) (InMemorySessionStore.sessions st) = None ∧
  InMemorySessionStore.getConversationHistory (id s) u st' = [] ∧
  s ∈ InMemorySessionStore.listUserSessions u st' ∧
  ∀ k v, k ≠ id s →
    InMemorySessionStore.getSession k v st'
    = InMemorySessionStore.getSession k v st ∧
    InMemorySessionStore.getConversationHistory k v st'
    = InMemorySessionStore.getConversationHistory k v st.
Proof.
  intros st s st'. pose proof (InMemory_wf_run ops) as Hwf. fold st in Hwf.
  split; [|split; [|split]].
  - destruct (JsMap.get (id s) (InMemorySessionStore.sessions st))
      as [s0|] eqn:Hget; [|done].
    destruct (wf_key_counter st Hwf _ _ Hget) as (now & c & Heq & Hlt).
    apply InMemory_session_id_inj in Heq. lia.
  - unfold InMemorySessionStore.getConversationHistory,
      InMemorySessionStore.getSession, InMemorySessionStore.stored_history.
    simpl. rewrite !JsMap_get_set_eq. simpl. by rewrite String.eqb_refl.
  - apply InMemory_list_get; [by apply InMemory_wf_create|].
    unfold InMemorySessionStore.getSession. simpl.
    rewrite JsMap_get_set_eq. simpl. by rewrite String.eqb_refl.
  - intros k v Hk. simpl in Hk. split.
    + apply InMemory_getSession_frame. simpl. by rewrite JsMap_get_set_ne.
    + apply InMemory_history_frame; simpl; by rewrite JsMap_get_set_ne.
Qed.

(** X4.  Ids are unique for the life of a store: whatever calls come in between,
    a later [createSession] returns an id different from an earlier one, in
    [InMemorySessionStore] and in [SessionManager], even for equal clock
    readings. *)
Theorem createSession_ids_unique :
  (∀ st0 clk1 u1 ops clk2 u2,
      let '(s1, st1) := InMemorySessionStore.createSession clk1 u1 st0 in
      let '(s2, _) :=
        InMemorySessionStore.createSession clk2 u2
          (InMemorySessionStore.run ops st1) in
      id s1 ≠ id s2) ∧
  (∀ st0 now1 u1 ops now2 u2,
      let '(s1, st1) := SessionManager.createSession now1 u1 st0 in
      let '(s2, _) :=
        SessionManager.createSession now2 u2 (SessionManager.run ops st1) in
      id s1 ≠ id s2).
Proof.
  split.
  - intros st0 clk1 u1 ops clk2 u2. simpl. intros Heq.
    apply InMemory_session_id_inj in Heq.
    pose proof (InMemory_kept_create clk1 u1 st0) as Hk.
    apply (InMemory_kept_run _ _ _ ops) in Hk. destruct Hk as [Hlt _].
    simpl in Hlt. lia.
  - intros st0 now1 u1 ops now2 u2. simpl. intros Heq.
    apply SessionManager_session_id_inj in Heq.
    assert (SessionManager_kept
              (SessionManager.session_id (SessionManager.idCounter st0)) u1
              (SessionManager.idCounter st0)
              (snd (SessionManager.createSession now1 u1 st0))) as Hk.
    { split; simpl; [lia|]. intros s. rewrite JsMap_get_set_eq.
      by intros [= <-]. }
    apply (SessionManager_kept_run _ _ ops) in Hk. destruct Hk as [Hlt _].
    simpl in Hlt. lia.
Qed.

Lemma InMemory_deleteSession_true sid u st :
  fst (InMemorySessionStore.deleteSession sid u st) = true →
  InMemorySessionStore.sessions
    (snd (InMemorySessionStore.deleteSession sid u st))
  = JsMap.delete sid (InMemorySessionStore.sessions st) ∧
  InMemorySessionStore.messages
    (snd (InMemorySessionStore.deleteSession sid u st))
  = JsMap.delete sid (InMemorySessionStore.messages st).
Proof.
  unfold InMemorySessionStore.deleteSession.
  destruct (JsMap.get sid _) as [s|]; [|done].
  by destruct (String.eqb (userId s) u).
Qed.

(** X5.  What a successful [deleteSession] looks like from outside, in a
    reachable state: afterwards nobody finds the session or any history
    under the id, [addMessage] on it throws, the listings lose exactly that
    session, and every other session keeps its lookup and its history. *)
Theorem InMemory_deleteSession_effect ops sid u :
  let st := InMemorySessionStore.run ops InMemorySessionStore.init in
  let st' := snd (InMemorySessionStore.deleteSession sid u st) in
  fst (InMemorySessionStore.deleteSession sid u st) = true →
  (∀ v, InMemorySessionStore.getSession sid v st' = None ∧
        InMemorySessionStore.getConversationHistory sid v st' = []) ∧
  (∀ v m, InMemorySessionStore.addMessage sid v m st'
          = (Throw (JsError "Session not found or access denied"), st')) ∧
  (∀ w s, s ∈ InMemorySessionStore.listUserSessions w st' ↔
          s ∈ InMemorySessionStore.listUserSessions w st ∧ id s ≠ sid) ∧
  (∀ k v, k ≠ sid →
     InMemorySessionStore.getSession k v st'
     = InMemorySessionStore.getSession k v st ∧
     InMemorySessionStore.getConversationHistory k v st'
     = InMemorySessionStore.getConversationHistory k v st).
Proof.
  intros st st' Hdel.
  pose proof (InMemory_wf_run ops) as Hwf. fold st in Hwf.
  assert (InMemory_wf st') as Hwf' by by apply InMemory_wf_delete.
  destruct (InMemory_deleteSession_true sid u st Hdel) as [Hs Hm].
  fold st' in Hs, Hm.
  assert (∀ v, InMemorySessionStore.getSession sid v st' = None) as Hnone.
  { intros v. unfold InMemorySessionStore.getSession.
    by rewrite Hs, JsMap_get_delete_eq. }
  assert (∀ k v, k ≠ sid →
            InMemorySessionStore.getSession k v st'
            = InMemorySessionStore.getSession k v st) as Hframe.
  { intros k v Hk. apply InMemory_getSession_frame.
    by rewrite Hs, JsMap_get_delete_ne. }
  split; [|split; [|split]].
  - intros v. split; [done|].
    unfold InMemorySessionStore.getConversationHistory. by rewrite Hnone.
  - intros v m. unfold InMemorySessionStore.addMessage. by rewrite Hnone.
  - intros w s. rewrite !InMemory_list_get by done. split.
    + intros Hget. destruct (decide (id s = sid)) as [Heq|Hne].
      * rewrite Heq, Hnone in Hget. done.
      * by rewrite <-Hframe.
    + intros [Hget Hne]. by rewrite Hframe.
  - intros k v Hk. split; [by apply Hframe|].
    apply InMemory_history_frame; rewrite ?Hs, ?Hm;
      by rewrite JsMap_get_delete_ne.
Qed.

Lemma InMemory_deleteSession_effect_witness :
  let st :=
    InMemorySessionStore.run
      [InMemorySessionStore.OpCreate
         (InMemorySessionStore.mkClock 1000 1000) "user-1"]
      InMemorySessionStore.init in
  let st' :=
    snd (InMemorySessionStore.deleteSession "opencode-1000-0" "user-1" st) in
  fst (InMemorySessionStore.deleteSession "opencode-1000-0" "user-1" st)
  = true ∧
  ∀ v, InMemorySessionStore.getSession "opencode-1000-0" v st' = None ∧
       InMemorySessionStore.getConversationHistory "opencode-1000-0" v st'
       = [].
Proof.
  intros st st'.
  assert (fst (InMemorySessionStore.deleteSession "opencode-1000-0" "user-1"
                 st) = true) as H by (vm_compute; reflexivity).
  split; [exact H|].
  exact (proj1 (InMemory_deleteSession_effect
                  [InMemorySessionStore.OpCreate
                     (InMemorySessionStore.mkClock 1000 1000) "user-1"]
                  "opencode-1000-0" "user-1" H)).
Defined.

(** X6.  [addMessage] either rejects or touches one history only.  Without a
    session of the requester under the id it throws and the store is as
    before; when it accepts, every lookup and listing is as before and so is
    the history of every other session. *)
Theorem InMemory_addMessage_frame sid u m st :
  (InMemorySessionStore.getSession sid u st = None →
     InMemorySessionStore.addMessage sid u m st
     = (Throw (JsError "Session not found or access denied"), st)) ∧
  (∀ st', InMemorySessionStore.addMessage sid u m st = (Ok tt, st') →
     (∀ k v, InMemorySessionStore.getSession k v st'
             = InMemorySessionStore.getSession k v st) ∧
     (∀ w, InMemorySessionStore.listUserSessions w st'
           = InMemorySessionStore.listUserSessions w st) ∧
     (∀ k v, k ≠ sid →
        InMemorySessionStore.getConversationHistory k v st'
        = InMemorySessionStore.getConversationHistory k v st)).
Proof.
  split.
  - intros Hnone. unfold InMemorySessionStore.addMessage. by rewrite Hnone.
  - intros st' Hadd.
    apply InMemory_addMessage_Ok in Hadd as (_ & Hs & _ & Hother).
    split; [|split].
    + intros k v. apply InMemory_getSession_frame. by rewrite Hs.
    + intros w. unfold InMemorySessionStore.listUserSessions. by rewrite Hs.
    + intros k v Hk. unfold InMemorySessionStore.getConversationHistory.
      rewrite (InMemory_getSession_frame k v st st') by by rewrite Hs.
      by rewrite Hother.
Qed.

(** ** [SessionDurableObject]: what the schema keeps true *)

Lemma Durable_wf_init : Durable_wf SessionDurableObject.init.
Proof.
  split; simpl; try apply NoDup_nil_2; intros m Hm; by inv Hm.
Qed.

Lemma Durable_createSession_cases e u st :
  (existsb (λ r, String.eqb (SessionDurableObject.row_id r)
                   (SessionDurableObject.session_id_of e))
           (SessionDurableObject.sessions st) = true ∧
   SessionDurableObject.createSession e u st
   = (Throw (JsError "UNIQUE constraint failed: sessions.id"), st)) ∨
  ((SessionDurableObject.session_id_of e
    ∉ map SessionDurableObject.row_id (SessionDurableObject.sessions st)) ∧
   SessionDurableObject.createSession e u st
   = (Ok (mkSession (SessionDurableObject.session_id_of e) u
            (SessionDurableObject.now_createdAt e)),
      SessionDurableObject.mkState
        (SessionDurableObject.sessions st ++
         [SessionDurableObject.mkSessionRow
            (SessionDurableObject.session_id_of e) u
            (SessionDurableObject.now_createdAt e)])
        (SessionDurableObject.messages st)
        (SessionDurableObject.message_seq st))).
Proof.
  unfold SessionDurableObject.createSession, bind,
    SessionDurableObject.insert_session, ret. simpl.
  destruct (existsb _ _) eqn:Hex; [by left|]. right. split; [|done].
  intros Hin. apply list_elem_of_fmap in Hin as (row & Hid & Hrow).
  assert (existsb (λ r, String.eqb (SessionDurableObject.row_id r)
                          (SessionDurableObject.session_id_of e))
            (SessionDurableObject.sessions st) = true) as Hex'.
  { apply existsb_exists. exists row. split; [by apply list_elem_of_In|].
    rewrite Hid. apply String.eqb_refl. }
  congruence.
Qed.

Lemma Durable_wf_create e u st :
  Durable_wf st → Durable_wf (snd (SessionDurableObject.createSession e u st)).
Proof.
  intros [Hpk Hfk Hids Hmk].
  destruct (Durable_createSession_cases e u st) as [[_ ->]|[Hfresh ->]];
    [done|].
  split; simpl; try done.
  - rewrite map_app. simpl. apply NoDup_app. split; [done|]. split.
    + intros x Hx Hx'. apply list_elem_of_singleton in Hx'. by subst x.
    + apply NoDup_singleton.
  - intros m Hm. rewrite map_app. apply elem_of_app. left. by apply Hfk.
Qed.

Lemma Durable_wf_delete sid u st :
  Durable_wf st → Durable_wf (snd (SessionDurableObject.deleteSession sid u st)).
Proof.
  intros Hwf. unfold SessionDurableObject.deleteSession.
  destruct (SessionDurableObject.getSession sid u st); [|done].
  destruct Hwf as [Hpk Hfk Hids Hmk]. split; simpl.
  - clear -Hpk. induction (SessionDurableObject.sessions st) as [|r rows IH];
      simpl in *; [done|].
    apply NoDup_cons in Hpk as [Hr Hpk].
    destruct (negb _); simpl; [|by apply IH].
    apply NoDup_cons. split; [|by apply IH].
    rewrite list_elem_of_fmap. intros (r' & Hid & Hr').
    apply elem_of_List_filter in Hr' as [Hr' _]. apply Hr.
    rewrite list_elem_of_fmap. by exists r'.
  - intros m Hm. apply elem_of_List_filter in Hm as [Hm Hne].
    apply negb_true_iff, String.eqb_neq in Hne.
    specialize (Hfk m Hm). apply list_elem_of_fmap in Hfk as (r & Hid & Hr).
    apply list_elem_of_fmap. exists r. split; [done|].
    apply elem_of_List_filter. split; [done|].
    apply negb_true_iff, String.eqb_neq. congruence.
  - intros m Hm. apply elem_of_List_filter in Hm as [Hm _]. by apply Hids.
  - clear -Hmk. induction (SessionDurableObject.messages st) as [|r rows IH];
      simpl in *; [done|].
    apply NoDup_cons in Hmk as [Hr Hmk].
    destruct (negb _); simpl; [|by apply IH].
    apply NoDup_cons. split; [|by apply IH].
    rewrite list_elem_of_fmap. intros (r' & Hid & Hr').
    apply elem_of_List_filter in Hr' as [Hr' _]. apply Hr.
    rewrite list_elem_of_fmap. by exists r'.
Qed.

Lemma Durable_wf_addMessage now sid u m st :
  Durable_wf st →
  Durable_wf (snd (SessionDurableObject.addMessage now sid u m st)).
Proof.
  intros Hwf. unfold SessionDurableObject.addMessage.
  destruct (SessionDurableObject.getSession sid u st) as [s|] eqn:Hget;
    [|done].
  apply Durable_getSession_Some in Hget as (row & Hrow & Hid & _).
  destruct Hwf as [Hpk Hfk Hids Hmk]. split; simpl; [done|..].
  - intros m' Hm'. apply elem_of_app in Hm' as [Hm'|Hm']; [by apply Hfk|].
    apply list_elem_of_singleton in Hm' as ->. simpl.
    apply list_elem_of_fmap. by exists row.
  - intros m' Hm'. apply elem_of_app in Hm' as [Hm'|Hm'].
    + specialize (Hids m' Hm'). lia.
    + apply list_elem_of_singleton in Hm' as ->. simpl. lia.
  - rewrite map_app. simpl. apply NoDup_app. split; [done|]. split.
    + intros x Hx Hx'. apply list_elem_of_singleton in Hx' as ->.
      apply list_elem_of_fmap in Hx as (m' & Hid' & Hm').
      specialize (Hids m' Hm'). lia.
    + apply NoDup_singleton.
Qed.

Lemma Durable_wf_run ops :
  Durable_wf (Durable_run ops SessionDurableObject.init).
Proof.
  unfold Durable_run.
  assert (∀ st, Durable_wf st →
                Durable_wf (fold_left (λ s o, Durable_step o s) ops st))
    as Hgen.
  { induction ops as [|o ops IH]; intros st Hst; [done|].
    simpl. apply IH. destruct o as [e u|sid u|now sid u m].
    - by apply Durable_wf_create.
    - by apply Durable_wf_delete.
    - by apply Durable_wf_addMessage. }
  apply Hgen, Durable_wf_init.
Qed.

(** X7.  The schema's constraints hold in every state the durable store reaches:
    session ids are distinct, message ids are distinct and below the
    sequence, and no message is left without its session, also after a
    cascading delete. *)
Theorem Durable_schema_invariant ops :
  let st := Durable_run ops SessionDurableObject.init in
  NoDup (map SessionDurableObject.row_id (SessionDurableObject.sessions st)) ∧
  NoDup (map SessionDurableObject.message_id
             (SessionDurableObject.messages st)) ∧
  ∀ m, m ∈ SessionDurableObject.messages st →
       (SessionDurableObject.message_id m
        < SessionDurableObject.message_seq st)%N ∧
       ∃ row, row ∈ SessionDurableObject.sessions st ∧
              SessionDurableObject.row_id row
              = SessionDurableObject.session_id m.
Proof.
  intros st. destruct (Durable_wf_run ops) as [Hpk Hfk Hids Hmk].
  fold st in Hpk, Hfk, Hids, Hmk. split; [done|]. split; [done|].
  intros m Hm. split; [by apply Hids|].
  specialize (Hfk m Hm). apply list_elem_of_fmap in Hfk as (row & Hid & Hrow).
  by exists row.
Qed.

Lemma NoDup_fmap_inj_on {A B} (f : A → B) (l : list A) x y :
  NoDup (map f l) → x ∈ l → y ∈ l → f x = f y → x = y.
Proof.
  induction l as [|a l IH]; simpl; [intros _ H; by inv H|].
  intros Hnd Hx Hy Hf. apply NoDup_cons in Hnd as [Ha Hnd].
  apply elem_of_cons in Hx as [->|Hx], Hy as [->|Hy]; auto.
  - destruct Ha. rewrite Hf. apply list_elem_of_fmap. by exists y.
  - destruct Ha. rewrite <-Hf. apply list_elem_of_fmap. by exists x.
Qed.

Lemma Durable_getSession_frame k v st st' :
  SessionDurableObject.sessions st' = SessionDurableObject.sessions st →
  SessionDurableObject.getSession k v st'
  = SessionDurableObject.getSession k v st.
Proof. unfold SessionDurableObject.getSession. by intros ->. Qed.

(** X8.  A session id has one owner.  In every state the durable store reaches,
    when [u1] can get the session under an id, any other user gets [null]
    for it, cannot delete it (the answer is [false] and nothing changes) and
    reads an empty history. *)
Theorem Durable_single_owner ops i u1 u2 :
  let st := Durable_run ops SessionDurableObject.init in
  is_Some (SessionDurableObject.getSession i u1 st) →
  u1 ≠ u2 →
  SessionDurableObject.getSession i u2 st = None ∧
  SessionDurableObject.deleteSession i u2 st = (false, st) ∧
  SessionDurableObject.getConversationHistory i u2 st = [].
Proof.
  intros st [s Hs] Hne. apply Durable_ownership_isolation with (u1 := u1);
    [done|].
  intros row Hrow Hid.
  apply Durable_getSession_Some in Hs as (row1 & Hrow1 & Hid1 & Hu1 & _).
  destruct (Durable_wf_run ops) as [Hpk _ _ _]. fold st in Hpk.
  assert (row = row1) as -> by
    (eapply (NoDup_fmap_inj_on SessionDurableObject.row_id); eauto;
     congruence).
  done.
Qed.

Lemma Durable_single_owner_witness :
  let e := SessionDurableObject.mkEntropy 1000 "k3j9x0q2a" 1000 in
  let st := Durable_run [DurableCreate e "user-1"] SessionDurableObject.init in
  SessionDurableObject.getSession "opencode-1000-k3j9x0q2a" "user-2" st = None ∧
  SessionDurableObject.deleteSession "opencode-1000-k3j9x0q2a" "user-2" st
  = (false, st) ∧
  SessionDurableObject.getConversationHistory "opencode-1000-k3j9x0q2a"
    "user-2" st = [].
Proof.
  intros e st.
  apply (Durable_single_owner [DurableCreate e "user-1"]
           "opencode-1000-k3j9x0q2a" "user-1" "user-2").
  - vm_compute. by eexists.
  - discriminate.
Defined.

Lemma Durable_history_of_owner sid u st s :
  SessionDurableObject.getSession sid u st = Some s →
  SessionDurableObject.getConversationHistory sid u st
  = map (λ row, mkMessage (SessionDurableObject.message_role row)
                          (SessionDurableObject.message_content row))
        (SessionDurableObject.select_history sid st).
Proof.
  intros Hs. unfold SessionDurableObject.getConversationHistory.
  by rewrite Hs.
Qed.

(** X9.  The history the owner reads holds the messages stored for that session,
    each once and no others, whatever their order; anyone else reads
    nothing. *)
Theorem Durable_history_content sid u st :
  (is_Some (SessionDurableObject.getSession sid u st) →
     SessionDurableObject.getConversationHistory sid u st
     ≡ₚ Durable_session_messages sid st) ∧
  (SessionDurableObject.getSession sid u st = None →
     SessionDurableObject.getConversationHistory sid u st = []).
Proof.
  split.
  - intros [s Hs]. rewrite (Durable_history_of_owner _ _ _ _ Hs).
    unfold Durable_session_messages, SessionDurableObject.select_history.
    by rewrite order_by_perm.
  - intros Hnone. unfold SessionDurableObject.getConversationHistory.
    by rewrite Hnone.
Qed.

Lemma insert_row_snoc {A} (le : A → A → bool) y l x :
  le y x = true → insert_row le y (l ++ [x]) = insert_row le y l ++ [x].
Proof.
  intros Hyx. induction l as [|z l IH]; simpl; [by rewrite Hyx|].
  destruct (le y z); [done|]. by rewrite IH.
Qed.

Lemma order_by_snoc {A} (le : A → A → bool) l x :
  (∀ y, y ∈ l → le y x = true) →
  order_by le (l ++ [x]) = order_by le l ++ [x].
Proof.
  induction l as [|y l IH]; intros Hle; simpl; [done|].
  rewrite IH by (intros z Hz; apply Hle; by right).
  apply insert_row_snoc, Hle. left.
Qed.

(** X10.  With a clock that has moved on, the durable store appends: when
    [addMessage] is accepted at a time later than the times stored with the
    messages of that session, the owner reads the earlier history followed
    by the new message. *)
Theorem Durable_history_append now sid u m st st' :
  SessionDurableObject.addMessage now sid u m st = (Ok tt, st') →
  (∀ row, row ∈ SessionDurableObject.messages st →
          SessionDurableObject.session_id row = sid →
          (SessionDurableObject.message_created_at row < now)%Z) →
  SessionDurableObject.getConversationHistory sid u st'
  = SessionDurableObject.getConversationHistory sid u st ++ [m].
Proof.
  intros Hadd Hclock.
  apply Durable_addMessage_Ok in Hadd as ([s Hs] & Hsess & Hmsgs).
  rewrite (Durable_history_of_owner sid u st s Hs).
  rewrite (Durable_history_of_owner sid u st' s)
    by by rewrite (Durable_getSession_frame _ _ _ _ Hsess).
  unfold SessionDurableObject.select_history. rewrite Hmsgs.
  rewrite List.filter_app. simpl. rewrite String.eqb_refl.
  rewrite order_by_snoc.
  - rewrite map_app. simpl. by destruct m.
  - intros row Hrow. apply elem_of_List_filter in Hrow as [Hrow Hid].
    apply String.eqb_eq in Hid. simpl. apply Z.leb_le.
    specialize (Hclock row Hrow Hid). lia.
Qed.

Lemma Durable_history_append_witness :
  let e := SessionDurableObject.mkEntropy 1000 "k3j9x0q2a" 1000 in
  let sid := "opencode-1000-k3j9x0q2a" in
  let st :=
    Durable_run [DurableCreate e "user-1";
                 DurableAddMessage 1001 sid "user-1" (mkMessage "user" "Hello")]
      SessionDurableObject.init in
  let m := mkMessage "assistant" "Hi there" in
  SessionDurableObject.getConversationHistory sid "user-1"
    (snd (SessionDurableObject.addMessage 1002 sid "user-1" m st))
  = [mkMessage "user" "Hello"; m].
Proof.
  intros e sid st m.
  apply (Durable_history_append 1002 sid "user-1" m st).
  - vm_compute. reflexivity.
  - intros row Hrow Hid. vm_compute in Hrow.
    apply list_elem_of_singleton in Hrow as ->. simpl. lia.
Defined.

Lemma List_filter_absorb {A} (f g : A → bool) l :
  (∀ x, f x = true → g x = true) →
  List.filter f (List.filter g l) = List.filter f l.
Proof.
  intros Hfg. induction l as [|x l IH]; simpl; [done|].
  destruct (g x) eqn:Hg; simpl.
  - by rewrite IH.
  - destruct (f x) eqn:Hf; [|done]. apply Hfg in Hf. congruence.
Qed.

Lemma Durable_list_elem u st s :
  s ∈ SessionDurableObject.listUserSessions u st ↔
  ∃ row, row ∈ SessionDurableObject.sessions st ∧
         SessionDurableObject.user_id row = u ∧
         s = SessionDurableObject.to_session row.
Proof.
  unfold SessionDurableObject.listUserSessions.
  rewrite list_elem_of_fmap. split.
  - intros (row & -> & Hrow). rewrite order_by_perm in Hrow.
    apply elem_of_List_filter in Hrow as [Hrow Hu].
    apply String.eqb_eq in Hu. by exists row.
  - intros (row & Hrow & Hu & ->). exists row. split; [done|].
    rewrite order_by_perm. apply elem_of_List_filter. split; [done|].
    by apply String.eqb_eq.
Qed.

(** X11.  [createSession] on the durable store, in a reachable state.  When the id
    it made is taken, the INSERT fails: the call throws and the tables are
    as before.  Otherwise it returns the session with that id for [u]; the
    owner then finds it, sees it listed and reads an empty history, and
    every other session keeps its lookup and its history. *)
Theorem Durable_createSession_effect ops e u :
  let st := Durable_run ops SessionDurableObject.init in
  let i := SessionDurableObject.session_id_of e in
  let '(r, st') := SessionDurableObject.createSession e u st in
  match r with
  | Throw _ =>
      i ∈ map SessionDurableObject.row_id (SessionDurableObject.sessions st) ∧
      st' = st
  | Ok s =>
      (i ∉ map SessionDurableObject.row_id (SessionDurableObject.sessions st)) ∧
      s = mkSession i u (SessionDurableObject.now_createdAt e) ∧
      SessionDurableObject.getSession i u st' = Some s ∧
      s ∈ SessionDurableObject.listUserSessions u st' ∧
      SessionDurableObject.getConversationHistory i u st' = [] ∧
      ∀ k v, k ≠ i →
        SessionDurableObject.getSession k v st'
        = SessionDurableObject.getSession k v st ∧
        SessionDurableObject.getConversationHistory k v st'
        = SessionDurableObject.getConversationHistory k v st
  end.
Proof.
  intros st i. subst i.
  pose proof (Durable_wf_run ops) as Hwf. fold st in Hwf.
  destruct (Durable_createSession_cases e u st) as [[Hex Hc]|[Hfresh Hc]].
  - rewrite Hc. split; [|done].
    apply existsb_exists in Hex as (row & Hrow & Hid).
    apply String.eqb_eq in Hid. apply list_elem_of_fmap. exists row.
    split; [done|]. by apply list_elem_of_In.
  - pose proof (Durable_round_trip e u st) as Hrt. rewrite Hc in Hrt |- *.
    destruct (Hrt _ _ eq_refl) as (Hget & _ & _ & _). clear Hrt. simpl in Hget.
    split; [done|]. split; [done|]. split; [exact Hget|]. split; [|split].
    + apply Durable_list_elem.
      exists (SessionDurableObject.mkSessionRow
                (SessionDurableObject.session_id_of e) u
                (SessionDurableObject.now_createdAt e)).
      split; [|done]. simpl. apply elem_of_app. right. left.
    + unfold SessionDurableObject.getConversationHistory. rewrite Hget.
      unfold SessionDurableObject.select_history. simpl.
      replace (List.filter _ (SessionDurableObject.messages st))
        with (@nil SessionDurableObject.message_row); [done|].
      symmetry. apply List_filter_nil. intros m Hm.
      apply String.eqb_neq. intros Hid. apply Hfresh. rewrite <-Hid.
      by apply (wf_foreign_key st Hwf).
    + intros k v Hk.
      assert (SessionDurableObject.getSession k v
                (SessionDurableObject.mkState
                   (SessionDurableObject.sessions st ++
                    [SessionDurableObject.mkSessionRow
                       (SessionDurableObject.session_id_of e) u
                       (SessionDurableObject.now_createdAt e)])
                   (SessionDurableObject.messages st)
                   (SessionDurableObject.message_seq st))
              = SessionDurableObject.getSession k v st) as Hframe.
      { unfold SessionDurableObject.getSession.
        cbn [SessionDurableObject.sessions]. rewrite List.filter_app.
        cbn [List.filter SessionDurableObject.row_id
             SessionDurableObject.user_id].
        assert (String.eqb (SessionDurableObject.session_id_of e) k = false)
          as -> by by apply String.eqb_neq.
        cbn [andb]. by rewrite app_nil_r. }
      split; [done|].
      unfold SessionDurableObject.getConversationHistory. by rewrite Hframe.
Qed.

(** X12.  [deleteSession] on the durable store, seen from outside.  It answers
    [true] exactly when the requester has a session under the id; then
    nobody finds the session or reads a history under the id, no message
    row of it is left (the cascade), and every other session keeps its
    lookup and its history.  When it answers [false] nothing has changed. *)
Theorem Durable_deleteSession_effect sid u st :
  let '(deleted, st') := SessionDurableObject.deleteSession sid u st in
  (deleted = true ↔ is_Some (SessionDurableObject.getSession sid u st)) ∧
  (deleted = false → st' = st) ∧
  (deleted = true →
     (∀ v, SessionDurableObject.getSession sid v st' = None ∧
           SessionDurableObject.getConversationHistory sid v st' = []) ∧
     Durable_session_messages sid st' = [] ∧
     ∀ k v, k ≠ sid →
       SessionDurableObject.getSession k v st'
       = SessionDurableObject.getSession k v st ∧
       SessionDurableObject.getConversationHistory k v st'
       = SessionDurableObject.getConversationHistory k v st).
Proof.
  pose proof (Durable_deleteSession_spec sid u st) as Hspec.
  unfold SessionDurableObject.deleteSession in *.
  destruct (SessionDurableObject.getSession sid u st) as [s|] eqn:Hget.
  - destruct Hspec as (_ & Hgone & _). destruct (Hgone eq_refl) as [Hrows Hmsgs].
    split; [split; [by eexists|done]|]. split; [done|]. intros _.
    assert (∀ v, SessionDurableObject.getSession sid v
                   (SessionDurableObject.delete_session_row sid st) = None)
      as Hnone.
    { intros v. apply Durable_getSession_None. intros row Hrow Hid.
      by destruct (Hrows row Hrow). }
    split; [|split].
    + intros v. split; [done|].
      unfold SessionDurableObject.getConversationHistory. by rewrite Hnone.
    + unfold Durable_session_messages.
      replace (List.filter _ _) with (@nil SessionDurableObject.message_row);
        [done|].
      symmetry. apply List_filter_nil. intros m Hm.
      apply String.eqb_neq. by apply Hmsgs.
    + intros k v Hk.
      assert (SessionDurableObject.getSession k v
                (SessionDurableObject.delete_session_row sid st)
              = SessionDurableObject.getSession k v st) as Hframe.
      { unfold SessionDurableObject.getSession. simpl.
        rewrite List_filter_absorb; [done|].
        intros row Hrow. apply andb_true_iff in Hrow as [Hid _].
        apply String.eqb_eq in Hid. apply negb_true_iff, String.eqb_neq.
        congruence. }
      split; [done|].
      unfold SessionDurableObject.getConversationHistory. rewrite Hframe.
      destruct (SessionDurableObject.getSession k v st); [|done].
      unfold SessionDurableObject.select_history. simpl.
      rewrite List_filter_absorb; [done|].
      intros m Hm. apply String.eqb_eq in Hm.
      apply negb_true_iff, String.eqb_neq. congruence.
  - split; [split; [done|by intros [? ?]]|]. split; [done|]. done.
Qed.

(** ** The relay and the routes over the in-memory store *)

Lemma OpenCodeService_deleteSession_inMemory sid u sv :
  OpenCodeService.deleteSession inMemoryStore sid u sv
  = (Ok (fst (InMemorySessionStore.deleteSession sid u
                (OpenCodeService.sessionDurableObject sv))),
     OpenCodeService.mkState (OpenCodeService.apiKey sv)
       (snd (InMemorySessionStore.deleteSession sid u
               (OpenCodeService.sessionDurableObject sv)))
       (OpenCodeService.sent sv)).
Proof.
  unfold OpenCodeService.deleteSession, OpenCodeService.on_store. simpl.
  unfold total. by destruct (InMemorySessionStore.deleteSession _ _ _).
Qed.


(** X13.  [sendPrompt] over the in-memory store returns normally exactly when the
    requester owns the session.  Otherwise it throws "Session not found or
    access denied" before anything happens: no request is sent and the
    store is untouched.  On an owned session it never throws, whatever the
    upstream does, and sends exactly one request. *)
Theorem sendPrompt_outcome upstream sid u prompt sv :
  (InMemorySessionStore.getSession sid u
     (OpenCodeService.sessionDurableObject sv) = None →
   OpenCodeService.sendPrompt inMemoryStore upstream sid u prompt sv
   = (Throw (JsError "Session not found or access denied"), sv)) ∧
  (is_Some (InMemorySessionStore.getSession sid u
              (OpenCodeService.sessionDurableObject sv)) →
   ∃ reply sv',
     OpenCodeService.sendPrompt inMemoryStore upstream sid u prompt sv
     = (Ok (OpenCodeService.mkPromptResponse reply), sv') ∧
     length (OpenCodeService.sent sv') = S (length (OpenCodeService.sent sv))).
Proof.
  split.
  - intros Hnone. unfold OpenCodeService.sendPrompt, bind.
    change (OpenCodeService.on_store
              (store_getSession inMemoryStore sid u) sv)
      with (OpenCodeService.getSession inMemoryStore sid u sv).
    rewrite OpenCodeService_getSession_inMemory. by rewrite Hnone.
  - intros [s Hs].
    destruct (sendPrompt_inMemory upstream sid u prompt sv s Hs)
      as (st' & Hsend & _). do 2 eexists. split; [exact Hsend|].
    simpl. rewrite length_app. simpl. lia.
Qed.

Section PromptRoute.
Variable upstream : OpenCodeService.request → OpenCodeService.fetch_outcome.
Variable js_String : thrown → string.
Variables (clk : InMemorySessionStore.clock) (u p : string).
Variable sv : OpenCodeService.state InMemorySessionStore.state.

Let st := OpenCodeService.sessionDurableObject sv.




End PromptRoute.




(** X16.  [DELETE /api/sessions/:id] over the in-memory store: 204 when the
    requester owns the session, which is then gone, so that the same request
    again is answered 404; 404 with nothing changed when there is no such
    session or it belongs to someone else. *)
Theorem delete_session_route u sid sv :
  let st := OpenCodeService.sessionDurableObject sv in
  let '(r, sv') := WorkerSessions.delete_session inMemoryStore u sid sv in
  (is_Some (InMemorySessionStore.getSession sid u st) →
     r = Ok (WorkerSessions.mkResponse 204 WorkerSessions.EmptyBody) ∧
     InMemorySessionStore.getSession sid u
       (OpenCodeService.sessionDurableObject sv') = None ∧
     fst (WorkerSessions.delete_session inMemoryStore u sid sv')
     = Ok (WorkerSessions.mkResponse 404
             (WorkerSessions.ErrorBody "Session not found"))) ∧
  (InMemorySessionStore.getSession sid u st = None →
     r = Ok (WorkerSessions.mkResponse 404
               (WorkerSessions.ErrorBody "Session not found")) ∧
     sv' = sv).
Proof.
  intros st. unfold WorkerSessions.delete_session, bind.
  rewrite OpenCodeService_deleteSession_inMemory. fold st.
  pose proof (InMemory_deleteSession_spec sid u st) as Hspec.
  pose proof (InMemory_deleteSession_twice sid u u st) as Htwice.
  destruct (InMemorySessionStore.deleteSession sid u st) as [deleted st']
    eqn:Hdel.
  destruct Hspec as (Hiff & Hgone & Hkeep). simpl in Htwice.
  destruct deleted; simpl.
  - split.
    + intros _. split; [done|].
      destruct (Hgone eq_refl) as (Hnone & _). split.
      * unfold InMemorySessionStore.getSession. by rewrite Hnone.
      * rewrite OpenCodeService_deleteSession_inMemory. simpl.
        by rewrite (Htwice eq_refl).
    + intros Hnone. rewrite InMemory_getSession_None in Hnone.
      destruct (proj1 Hiff eq_refl) as (s & Hs & Hu).
      by destruct (Hnone s Hs).
  - split.
    + intros [s Hs]. apply InMemory_getSession_Some in Hs.
      assert (false = true) by (apply Hiff; by exists s). done.
    + intros _. split; [done|]. rewrite (Hkeep eq_refl). by destruct sv.
Qed.


(** ** Strings: prefixes, substrings, segments *)

Lemma prefix_nil_l s : String.prefix "" s = true.
Proof. by destruct s. Qed.

Lemma prefix_true p s :
  String.prefix p s = true →
  s = p +:+ Js.substring_from (String.length p) s.
Proof.
  revert s. induction p as [|c p IH]; intros s; [done|].
  destruct s as [|c' s]; simpl; [done|].
  destruct (ascii_dec c c') as [<-|]; [|done].
  intros Hp. rewrite string_app_cons. f_equal. by apply IH.
Qed.

Lemma includes_unfold s n :
  Js.includes s n
  = String.prefix n s
    || match s with "" => false | String _ s' => Js.includes s' n end.
Proof. by destruct s. Qed.

Lemma includes_spec s n :
  Js.includes s n = true ↔ ∃ a b, s = a +:+ n +:+ b.
Proof.
  split.
  - induction s as [|c s IH]; rewrite includes_unfold;
      intros H; apply orb_true_iff in H as [H|H].
    + apply prefix_true in H. exists "", (Js.substring_from (String.length n) "").
      by rewrite string_app_nil_l.
    + done.
    + apply prefix_true in H. eexists "", _. rewrite string_app_nil_l.
      exact H.
    + destruct (IH H) as (a & b & ->). exists (String c a), b.
      by rewrite string_app_cons.
  - intros (a & b & ->). induction a as [|c a IH]; rewrite includes_unfold.
    + rewrite string_app_nil_l, prefix_app. done.
    + rewrite string_app_cons, IH. apply orb_true_r.
Qed.

Lemma includes_trans s m n :
  Js.includes s m = true → Js.includes m n = true → Js.includes s n = true.
Proof.
  rewrite !includes_spec. intros (a & b & ->) (a' & b' & ->).
  exists (a +:+ a'), (b' +:+ b). by rewrite !string_app_assoc.
Qed.

Lemma split_nonempty sep s : Js.split sep s ≠ [].
Proof.
  destruct s as [|c s]; simpl; [done|].
  destruct (Ascii.eqb c sep); [done|]. by destruct (Js.split sep s).
Qed.

Lemma split_join sep s : Js_join sep (Js.split sep s) = s.
Proof.
  induction s as [|c s IH]; simpl; [done|].
  pose proof (split_nonempty sep s) as Hne.
  destruct (Ascii.eqb c sep) eqn:Hc.
  - apply Ascii.eqb_eq in Hc as ->.
    destruct (Js.split sep s) as [|x xs]; [done|]. simpl in *.
    by rewrite string_app_nil_l, IH.
  - destruct (Js.split sep s) as [|x xs]; [done|].
    destruct xs as [|y ys]; simpl in *; [by rewrite IH|].
    by rewrite string_app_cons, IH.
Qed.

Lemma split_sep_free_parts sep s :
  Forall (λ x, sep_free sep x = true) (Js.split sep s).
Proof.
  induction s as [|c s IH]; simpl; [by repeat constructor|].
  pose proof (split_nonempty sep s) as Hne.
  destruct (Ascii.eqb c sep) eqn:Hc; [by constructor|].
  destruct (Js.split sep s) as [|x xs]; [done|].
  apply Forall_cons in IH as [Hx Hxs]. constructor; [|done].
  simpl. by rewrite Hc.
Qed.

Lemma split_length sep s : length (Js.split sep s) = S (count_char sep s).
Proof.
  induction s as [|c s IH]; simpl; [done|].
  pose proof (split_nonempty sep s) as Hne.
  destruct (Ascii.eqb c sep); simpl; [by rewrite IH|].
  destruct (Js.split sep s) as [|x xs]; [done|]. by rewrite <-IH.
Qed.

(** A header passes the first two checks exactly when it is [Bearer ]
    followed by a token of three dot-free segments. *)
Lemma bearer_three_parts authHeader :
  (Js.truthy authHeader = true ∧
   Js.startsWith authHeader "Bearer " = true ∧
   length (Js.split "." (Js.substring_from 7 authHeader)) = 3) ↔
  ∃ h p sg, authHeader = bearer_header h p sg ∧ three_segments h p sg.
Proof.
  split.
  - intros (_ & Hpre & Hlen). apply prefix_true in Hpre.
    change (String.length "Bearer ") with 7 in Hpre.
    pose proof (split_join "." (Js.substring_from 7 authHeader)) as Hjoin.
    pose proof (split_sep_free_parts "." (Js.substring_from 7 authHeader))
      as Hfree.
    destruct (Js.split "." (Js.substring_from 7 authHeader))
      as [|h [|p [|sg [|]]]]; try done.
    exists h, p, sg.
    apply Forall_cons in Hfree as [Hh Hfree].
    apply Forall_cons in Hfree as [Hp Hfree].
    apply Forall_cons in Hfree as [Hsg _].
    split; [|done]. rewrite Hpre at 1. unfold bearer_header.
    by rewrite <-Hjoin.
  - intros (h & p & sg & -> & Hseg).
    destruct (bearer_header_parts h p sg Hseg) as (Ht & Hs & Hparts).
    by rewrite Ht, Hs, Hparts.
Qed.

(** ** The three token checks, by what they let through *)

Lemma issuer_rejected_false payload :
  Clerk.issuer_rejected payload = false ↔
  ∃ i, Clerk.iss payload = Some i ∧ Js.includes i "clerk." = true.
Proof.
  unfold Clerk.issuer_rejected. destruct (Clerk.iss payload) as [i|].
  - split.
    + intros H. exists i. split; [done|].
      apply orb_false_iff in H as [_ H].
      destruct (Js.includes i "clerk.") eqn:H1; [done|].
      destruct (Js.includes i ".clerk.accounts.") eqn:H2; [|done].
      rewrite <-H1. by apply (includes_trans i ".clerk.accounts.").
    + intros (i' & [= <-] & H). rewrite H. by destruct i.
  - split; [done|]. by intros (i & ? & _).
Qed.

Lemma exp_truthy_and_before_false payload now :
  Clerk.exp_truthy_and_before payload now = false ↔
  ∀ e, Clerk.exp payload = Some e → (e = 0 ∨ now ≤ e)%Z.
Proof.
  unfold Clerk.exp_truthy_and_before. destruct (Clerk.exp payload) as [e|].
  - split.
    + intros H e' [= <-].
      destruct (Z.eqb_spec e 0); [by left|]. right. simpl in H. lia.
    + intros H. destruct (H e eq_refl) as [->|He]; [done|].
      apply andb_false_iff. right. lia.
  - split; [done|]. by intros _.
Qed.

Lemma exp_before_false payload now :
  Clerk.exp_before payload now = false ↔
  ∀ e, Clerk.exp payload = Some e → (now ≤ e)%Z.
Proof.
  unfold Clerk.exp_before. destruct (Clerk.exp payload) as [e|].
  - split; [intros H e' [= <-]; lia|]. intros H. specialize (H e eq_refl). lia.
  - split; [done|]. by intros _.
Qed.

Section TokenChecks.
Variable decode : string → result Clerk.ClerkJwtPayload.
Variable js_String : thrown → string.

Lemma verifyClerkToken_bearer h p sg date_now :
  three_segments h p sg →
  Clerk.verifyClerkToken decode (bearer_header h p sg) date_now
  = match decode p with
    | Throw _ => None
    | Ok payload =>
        if Clerk.exp_before payload (Clerk.seconds date_now) then None
        else match Clerk.iss payload with
             | None => None
             | Some issuer =>
                 if negb (Js.startsWith issuer "https://clerk.") then None
                 else Clerk.sub payload
             end
    end.
Proof.
  intros Hseg. destruct (decode p) as [payload|e] eqn:Hd.
  - by apply verifyClerkToken_decoded.
  - destruct (bearer_header_parts h p sg Hseg) as (Ht & Hs & Hparts).
    unfold Clerk.verifyClerkToken. rewrite Ht, Hs, Hparts. simpl.
    by rewrite Hd.
Qed.

Lemma authMiddleware_bearer h p sg date_now :
  three_segments h p sg →
  Clerk.authMiddleware decode (Some (bearer_header h p sg)) date_now
  = match decode p with
    | Throw _ => Clerk.Unauthorized "verify_error" None
    | Ok payload =>
        if Clerk.exp_truthy_and_before payload (Clerk.seconds date_now)
        then Clerk.Unauthorized "token_expired" None
        else if Clerk.issuer_rejected payload
        then Clerk.Unauthorized "invalid_issuer" None
        else match Clerk.sub payload with
             | Some userId =>
                 if Js.truthy userId then Clerk.Next userId
                 else Clerk.Unauthorized "no_user_id" None
             | None => Clerk.Unauthorized "no_user_id" None
             end
    end.
Proof.
  intros Hseg. destruct (decode p) as [payload|e] eqn:Hd.
  - by apply authMiddleware_decoded.
  - destruct (bearer_header_parts h p sg Hseg) as (Ht & Hs & Hparts).
    unfold Clerk.authMiddleware. simpl default. rewrite Ht, Hs, Hparts.
    simpl. by rewrite Hd.
Qed.

Lemma authMiddleware_hono_bearer h p sg date_now :
  three_segments h p sg →
  Clerk.authMiddleware_hono decode js_String (Some (bearer_header h p sg))
    date_now
  = match decode p with
    | Throw e => Clerk.Unauthorized (js_String e) None
    | Ok payload =>
        if Clerk.exp_before payload (Clerk.seconds date_now)
        then Clerk.Unauthorized "token_expired" None
        else if Clerk.issuer_rejected payload
        then Clerk.Unauthorized "invalid_issuer" (Clerk.iss payload)
        else match Clerk.sub payload with
             | Some userId =>
                 if Js.truthy userId then Clerk.Next userId
                 else Clerk.Unauthorized "no_user_id" None
             | None => Clerk.Unauthorized "no_user_id" None
             end
    end.
Proof.
  intros Hseg. destruct (decode p) as [payload|e] eqn:Hd.
  - by apply authMiddleware_hono_decoded.
  - destruct (bearer_header_parts h p sg Hseg) as (Ht & Hs & Hparts).
    unfold Clerk.authMiddleware_hono. simpl default.
    rewrite Ht, Hs, Hparts. simpl. by rewrite Hd.
Qed.

(** The checks that come before the decoding, read off a header. *)
Lemma header_checks authHeader :
  (negb (Js.truthy authHeader)
   || negb (Js.startsWith authHeader "Bearer ") = false) →
  negb (Nat.eqb (length (Js.split "." (Js.substring_from 7 authHeader))) 3)
  = false →
  ∃ h p sg, authHeader = bearer_header h p sg ∧ three_segments h p sg.
Proof.
  intros H1 H2. apply bearer_three_parts.
  apply orb_false_iff in H1 as [Ht Hs].
  apply negb_false_iff in Ht, Hs, H2. by apply Nat.eqb_eq in H2.
Qed.

Lemma verifyClerkToken_Some_bearer authHeader date_now u :
  Clerk.verifyClerkToken decode authHeader date_now = Some u →
  ∃ h p sg, authHeader = bearer_header h p sg ∧ three_segments h p sg.
Proof.
  unfold Clerk.verifyClerkToken.
  destruct (negb (Js.truthy authHeader) || _) eqn:H1; [done|].
  destruct (negb (Nat.eqb _ 3)) eqn:H2; [done|]. intros _.
  by apply header_checks.
Qed.

Lemma authMiddleware_Next_bearer header date_now u :
  Clerk.authMiddleware decode header date_now = Clerk.Next u →
  ∃ h p sg, header = Some (bearer_header h p sg) ∧ three_segments h p sg.
Proof.
  unfold Clerk.authMiddleware.
  destruct (negb (Js.truthy (default "" header)) || _) eqn:H1; [done|].
  destruct (negb (Nat.eqb _ 3)) eqn:H2; [done|]. intros _.
  destruct (header_checks _ H1 H2) as (h & p & sg & Hh & Hseg).
  destruct header as [hd|]; [|done]. simpl in Hh. subst hd. eauto.
Qed.

Lemma authMiddleware_hono_Next_bearer header date_now u :
  Clerk.authMiddleware_hono decode js_String header date_now = Clerk.Next u →
  ∃ h p sg, header = Some (bearer_header h p sg) ∧ three_segments h p sg.
Proof.
  unfold Clerk.authMiddleware_hono.
  destruct (negb (Js.truthy (default "" header)) || _) eqn:H1; [done|].
  destruct (negb (Nat.eqb _ 3)) eqn:H2; [done|]. intros _.
  destruct (header_checks _ H1 H2) as (h & p & sg & Hh & Hseg).
  destruct header as [hd|]; [|done]. simpl in Hh. subst hd. eauto.
Qed.
End TokenChecks.

(** X18.  The Worker's [authMiddleware] continues as user [u] exactly when the
    [Authorization] header is [Bearer h.p.sg] with three dot-free segments,
    the middle segment decodes to a payload whose [sub] is the non-empty
    [u], whose [iss] contains [clerk.] (the [.clerk.accounts.] alternative
    of the code adds nothing), and whose [exp] is absent, [0], or not
    before the current second.  Every other request gets a 401. *)
Theorem authMiddleware_admits decode header date_now u :
  Clerk.authMiddleware decode header date_now = Clerk.Next u ↔
  ∃ h p sg payload,
    header = Some (bearer_header h p sg) ∧ three_segments h p sg ∧
    decode p = Ok payload ∧
    Clerk.sub payload = Some u ∧ u ≠ "" ∧
    (∃ i, Clerk.iss payload = Some i ∧ Js.includes i "clerk." = true) ∧
    (∀ e, Clerk.exp payload = Some e →
       (e = 0 ∨ Clerk.seconds date_now ≤ e)%Z).
Proof.
  split.
  - intros H.
    destruct (authMiddleware_Next_bearer _ _ _ _ H)
      as (h & p & sg & -> & Hseg).
    rewrite (authMiddleware_bearer decode h p sg date_now Hseg) in H.
    destruct (decode p) as [payload|] eqn:Hd; [|done].
    destruct (Clerk.exp_truthy_and_before _ _) eqn:He; [done|].
    destruct (Clerk.issuer_rejected _) eqn:Hi; [done|].
    destruct (Clerk.sub payload) as [s|] eqn:Hsub; [|done].
    destruct (Js.truthy s) eqn:Hs; [|done]. injection H as ->.
    exists h, p, sg, payload. split_and!; try done.
    + by intros ->.
    + by apply issuer_rejected_false.
    + by apply exp_truthy_and_before_false.
  - intros (h & p & sg & payload & -> & Hseg & Hd & Hsub & Hu & Hi & He).
    rewrite (authMiddleware_bearer decode h p sg date_now Hseg), Hd.
    apply exp_truthy_and_before_false in He. rewrite He.
    apply issuer_rejected_false in Hi. rewrite Hi, Hsub.
    by destruct u.
Qed.

(** X19.  [verifyClerkToken] of [clerk.ts] returns the user id [u] exactly when
    the header is [Bearer h.p.sg] with three dot-free segments, the middle
    segment decodes to a payload with [sub = u], an [iss] that begins with
    [https://clerk.], and an [exp] that is absent or not before the current
    second.  In particular a payload without [exp] never expires, and an
    empty [sub] is returned as it is. *)
Theorem verifyClerkToken_admits decode authHeader date_now u :
  Clerk.verifyClerkToken decode authHeader date_now = Some u ↔
  ∃ h p sg payload,
    authHeader = bearer_header h p sg ∧ three_segments h p sg ∧
    decode p = Ok payload ∧
    Clerk.sub payload = Some u ∧
    (∃ rest, Clerk.iss payload = Some ("https://clerk." +:+ rest)) ∧
    (∀ e, Clerk.exp payload = Some e → (Clerk.seconds date_now ≤ e)%Z).
Proof.
  split.
  - intros H.
    destruct (verifyClerkToken_Some_bearer _ _ _ _ H)
      as (h & p & sg & -> & Hseg).
    rewrite (verifyClerkToken_bearer decode h p sg date_now Hseg) in H.
    destruct (decode p) as [payload|] eqn:Hd; [|done].
    destruct (Clerk.exp_before _ _) eqn:He; [done|].
    destruct (Clerk.iss payload) as [i|] eqn:Hi; [|done].
    destruct (negb _) eqn:Hp; [done|]. apply negb_false_iff in Hp.
    exists h, p, sg, payload. split_and!; try done.
    + apply prefix_true in Hp. eexists. rewrite Hi. f_equal. exact Hp.
    + by apply exp_before_false.
  - intros (h & p & sg & payload & -> & Hseg & Hd & Hsub & [rest Hi] & He).
    rewrite (verifyClerkToken_bearer decode h p sg date_now Hseg), Hd.
    apply exp_before_false in He. rewrite He, Hi.
    unfold Js.startsWith. by rewrite prefix_app.
Qed.

(** X20.  The [authMiddleware] of [worker-hono.ts] continues as [u] under the same
    conditions as the Worker's, except that an [exp] of [0] counts as
    expired: [exp] must be absent or not before the current second. *)
Theorem authMiddleware_hono_admits decode js_String header date_now u :
  Clerk.authMiddleware_hono decode js_String header date_now = Clerk.Next u ↔
  ∃ h p sg payload,
    header = Some (bearer_header h p sg) ∧ three_segments h p sg ∧
    decode p = Ok payload ∧
    Clerk.sub payload = Some u ∧ u ≠ "" ∧
    (∃ i, Clerk.iss payload = Some i ∧ Js.includes i "clerk." = true) ∧
    (∀ e, Clerk.exp payload = Some e → (Clerk.seconds date_now ≤ e)%Z).
Proof.
  split.
  - intros H.
    destruct (authMiddleware_hono_Next_bearer _ _ _ _ _ H)
      as (h & p & sg & -> & Hseg).
    rewrite (authMiddleware_hono_bearer decode js_String h p sg date_now Hseg)
      in H.
    destruct (decode p) as [payload|] eqn:Hd; [|done].
    destruct (Clerk.exp_before _ _) eqn:He; [done|].
    destruct (Clerk.issuer_rejected _) eqn:Hi; [done|].
    destruct (Clerk.sub payload) as [s|] eqn:Hsub; [|done].
    destruct (Js.truthy s) eqn:Hs; [|done]. injection H as ->.
    exists h, p, sg, payload. split_and!; try done.
    + by intros ->.
    + by apply issuer_rejected_false.
    + by apply exp_before_false.
  - intros (h & p & sg & payload & -> & Hseg & Hd & Hsub & Hu & Hi & He).
    rewrite (authMiddleware_hono_bearer decode js_String h p sg date_now Hseg),
      Hd.
    apply exp_before_false in He. rewrite He.
    apply issuer_rejected_false in Hi. rewrite Hi, Hsub.
    by destruct u.
Qed.

(** X21.  A credential whose token does not have exactly two dots is turned away
    by all three checks before its payload is looked at: whatever the
    decoder would do, [verifyClerkToken] returns [null] and both
    middlewares answer 401 [invalid_jwt_format]. *)
Theorem wrong_segment_count_rejected decode js_String token date_now :
  count_char "." token ≠ 2 →
  Clerk.verifyClerkToken decode ("Bearer " +:+ token) date_now = None ∧
  Clerk.authMiddleware decode (Some ("Bearer " +:+ token)) date_now
  = Clerk.Unauthorized "invalid_jwt_format" None ∧
  Clerk.authMiddleware_hono decode js_String (Some ("Bearer " +:+ token))
    date_now
  = Clerk.Unauthorized "invalid_jwt_format" None.
Proof.
  intros Hn.
  assert (Js.truthy ("Bearer " +:+ token) = true) as Ht by done.
  assert (Js.startsWith ("Bearer " +:+ token) "Bearer " = true) as Hs
    by apply prefix_app.
  assert (Js.substring_from 7 ("Bearer " +:+ token) = token) as Hsub by done.
  assert (Nat.eqb (length (Js.split "." token)) 3 = false) as Hlen.
  { apply Nat.eqb_neq. rewrite split_length. lia. }
  unfold Clerk.verifyClerkToken, Clerk.authMiddleware,
    Clerk.authMiddleware_hono. simpl default.
  by rewrite Ht, Hs, Hsub, Hlen.
Qed.

Lemma wrong_segment_count_rejected_witness :
  Clerk.verifyClerkToken (sample_decode 1700000000)
    ("Bearer " +:+ "invalid.token") 1700000000000 = None ∧
  Clerk.authMiddleware (sample_decode 1700000000)
    (Some ("Bearer " +:+ "invalid.token")) 1700000000000
  = Clerk.Unauthorized "invalid_jwt_format" None ∧
  Clerk.authMiddleware_hono (sample_decode 1700000000) sample_js_String
    (Some ("Bearer " +:+ "invalid.token")) 1700000000000
  = Clerk.Unauthorized "invalid_jwt_format" None.
Proof.
  apply (wrong_segment_count_rejected (sample_decode 1700000000)
           sample_js_String "invalid.token" 1700000000000).
  vm_compute. lia.
Defined.



(** ** [verifyClerkSessionOrToken]: where a user id comes from *)

Lemma ticket_attempt_Some fetch token secretKey u :
  ClerkBackend.ticket_attempt fetch token secretKey = Some u →
  u ≠ "" ∧
  ∃ r, fetch (ClerkBackend.sign_in_request token secretKey)
       = ClerkBackend.FetchResolves r ∧
       ClerkBackend.ok r = true ∧
       ClerkBackend.json_user_id r = Ok (Some u).
Proof.
  unfold ClerkBackend.ticket_attempt.
  destruct (fetch _) as [|r]; [done|].
  destruct (ClerkBackend.ok r) eqn:Hok; [|done].
  destruct (ClerkBackend.json_user_id r) as [[v|]|] eqn:Hj; try done.
  destruct (Js.truthy v) eqn:Hv; [|done]. intros [= ->].
  split; [by intros ->|]. by exists r.
Qed.

Lemma session_attempt_Some fetch token secretKey u :
  ClerkBackend.session_attempt fetch token secretKey = Some u →
  u ≠ "" ∧
  ∃ r, fetch (ClerkBackend.verify_request token secretKey)
       = ClerkBackend.FetchResolves r ∧
       ClerkBackend.ok r = true ∧
       ClerkBackend.json_user_id r = Ok (Some u).
Proof.
  unfold ClerkBackend.session_attempt.
  destruct (fetch _) as [|r]; [done|].
  destruct (ClerkBackend.ok r) eqn:Hok; [|done]. simpl.
  destruct (ClerkBackend.json_user_id r) as [[v|]|] eqn:Hj; try done.
  simpl. destruct (Js.truthy v) eqn:Hv; [|done]. intros [= ->].
  split; [by intros ->|]. by exists r.
Qed.

(** X23.  A user id returned by [verifyClerkSessionOrToken] is never the empty
    string, and it has one of three origins: the [sub] of a token that
    [verifyClerkToken] accepts, or the [user_id] of an [ok] answer of the
    Backend API to the sign-in request or to the session request made for
    this token with this secret key. *)
Theorem verifyClerkSessionOrToken_user decode fetch token secretKey date_now
    sent u :
  fst (ClerkBackend.verifyClerkSessionOrToken decode fetch token secretKey
         date_now sent) = Some u →
  u ≠ "" ∧
  (Clerk.verifyClerkToken decode ("Bearer " +:+ token) date_now = Some u ∨
   ∃ q r,
     (q = ClerkBackend.sign_in_request token secretKey ∨
      q = ClerkBackend.verify_request token secretKey) ∧
     fetch q = ClerkBackend.FetchResolves r ∧
     ClerkBackend.ok r = true ∧
     ClerkBackend.json_user_id r = Ok (Some u)).
Proof.
  unfold ClerkBackend.verifyClerkSessionOrToken.
  destruct (Clerk.verifyClerkToken _ _ _) as [j|] eqn:Hjwt; simpl.
  - destruct (Js.truthy j) eqn:Hj; simpl.
    + intros [= ->]. split; [by intros ->|by left].
    + destruct (ClerkBackend.ticket_attempt _ _ _) as [t|] eqn:Ht; simpl.
      * intros [= ->]. apply ticket_attempt_Some in Ht as (Hu & r & Hr).
        split; [done|]. right. eexists _, r. split; [by left|done].
      * intros Hs. apply session_attempt_Some in Hs as (Hu & r & Hr).
        split; [done|]. right. eexists _, r. split; [by right|done].
  - destruct (ClerkBackend.ticket_attempt _ _ _) as [t|] eqn:Ht; simpl.
    + intros [= ->]. apply ticket_attempt_Some in Ht as (Hu & r & Hr).
      split; [done|]. right. eexists _, r. split; [by left|done].
    + intros Hs. apply session_attempt_Some in Hs as (Hu & r & Hr).
      split; [done|]. right. eexists _, r. split; [by right|done].
Qed.

Lemma verifyClerkSessionOrToken_user_witness :
  "user-1" ≠ "" ∧
  (Clerk.verifyClerkToken (sample_decode 1700000000)
     ("Bearer " +:+ "sess_abc") 1700000000000 = Some "user-1" ∨
   ∃ q r,
     (q = ClerkBackend.sign_in_request "sess_abc" "sk_test" ∨
      q = ClerkBackend.verify_request "sess_abc" "sk_test") ∧
     sample_backend q = ClerkBackend.FetchResolves r ∧
     ClerkBackend.ok r = true ∧
     ClerkBackend.json_user_id r = Ok (Some "user-1")).
Proof.
  apply (verifyClerkSessionOrToken_user (sample_decode 1700000000)
           sample_backend "sess_abc" "sk_test" 1700000000000 []).
  vm_compute. reflexivity.
Defined.

(** X24.  The network traffic of [verifyClerkSessionOrToken].  When
    [verifyClerkToken] accepts the token with a non-empty user id, that id
    is returned and nothing is sent.  Otherwise the sign-in request is
    sent first, and the session request after it exactly when the sign-in
    attempt produced no user id; nothing else is ever sent, and both
    requests carry the secret key as bearer credential. *)
Theorem verifyClerkSessionOrToken_requests decode fetch token secretKey
    date_now sent :
  let jwt := Clerk.verifyClerkToken decode ("Bearer " +:+ token) date_now in
  let out :=
    ClerkBackend.verifyClerkSessionOrToken decode fetch token secretKey
      date_now sent in
  let sign_in := ClerkBackend.sign_in_request token secretKey in
  let verify := ClerkBackend.verify_request token secretKey in
  (∀ u, jwt = Some u → u ≠ "" → out = (Some u, sent)) ∧
  ((jwt = None ∨ jwt = Some "") →
     (∀ u, ClerkBackend.ticket_attempt fetch token secretKey = Some u →
        out = (Some u, sent ++ [sign_in])) ∧
     (ClerkBackend.ticket_attempt fetch token secretKey = None →
        snd out = sent ++ [sign_in; verify])) ∧
  (∃ added, snd out = sent ++ added ∧
     (added = [] ∨ added = [sign_in] ∨ added = [sign_in; verify]) ∧
     Forall (λ q, ClerkBackend.authorization q = "Bearer " +:+ secretKey)
       added).
Proof.
  intros jwt out sign_in verify. subst out.
  unfold ClerkBackend.verifyClerkSessionOrToken. fold jwt sign_in verify.
  split_and!.
  - intros u -> Hu. simpl. by destruct u.
  - intros Hj.
    assert (Js.truthy_opt jwt = false) as -> by (by destruct Hj as [->| ->]).
    split.
    + by intros u ->.
    + intros ->. simpl. by rewrite <-app_assoc.
  - destruct (Js.truthy_opt jwt).
    + exists []. simpl. rewrite app_nil_r. split_and!; [done|by left|done].
    + destruct (ClerkBackend.ticket_attempt _ _ _).
      * exists [sign_in]. simpl. split_and!; [done|by right; left|].
        by repeat constructor.
      * exists [sign_in; verify]. simpl. rewrite <-app_assoc.
        split_and!; [done|by right; right|]. by repeat constructor.
Qed.

(** ** Sanitised path components *)

Section PathFacts.
Import Paths.

Lemma remove_dotdot_cons2 a b rest :
  remove_dotdot (a :: b :: rest)
  = if N.eqb a dot && N.eqb b dot then remove_dotdot rest
    else a :: remove_dotdot (b :: rest).
Proof. reflexivity. Qed.

Lemma adjacent_dots_cons2 a b rest :
  adjacent_dots (a :: b :: rest)
  = (N.eqb a dot && N.eqb b dot) || adjacent_dots (b :: rest).
Proof. reflexivity. Qed.

Lemma remove_dotdot_head b rest :
  N.eqb b dot = false → ∃ r, remove_dotdot (b :: rest) = b :: r.
Proof.
  intros Hb. destruct rest as [|c rest]; [by exists []|].
  rewrite remove_dotdot_cons2, Hb. simpl. eauto.
Qed.

Lemma remove_dotdot_no_adjacent_len (n : nat) (s : js_string) :
  (length s ≤ n)%nat → adjacent_dots (remove_dotdot s) = false.
Proof.
  revert s. induction n as [|n IH]; intros s Hn.
  - by destruct s; [|simpl in Hn; lia].
  - destruct s as [|a [|b rest]]; [done..|].
    rewrite remove_dotdot_cons2. simpl in Hn.
    destruct (N.eqb a dot && N.eqb b dot) eqn:Hab.
    + apply IH. lia.
    + assert (adjacent_dots (remove_dotdot (b :: rest)) = false) as HR
        by (apply IH; simpl; lia).
      destruct (remove_dotdot (b :: rest)) as [|b' R] eqn:ER; [done|].
      rewrite adjacent_dots_cons2, HR, orb_false_r.
      destruct (N.eqb a dot) eqn:Ha; [|done]. simpl in Hab.
      destruct (remove_dotdot_head b rest Hab) as [r Hr].
      rewrite Hr in ER. injection ER as -> _. by rewrite Hab.
Qed.

Lemma adjacent_dots_app a b : adjacent_dots (a ++ dot :: dot :: b) = true.
Proof.
  induction a as [|x a IH]; [done|].
  destruct a as [|y a]; simpl app in *.
  - rewrite adjacent_dots_cons2. apply orb_true_iff. right. apply IH.
  - rewrite adjacent_dots_cons2, IH. apply orb_true_r.
Qed.

Lemma remove_dotdot_no_dotdot s a b :
  remove_dotdot s ≠ a ++ dot :: dot :: b.
Proof.
  intros H. pose proof (remove_dotdot_no_adjacent_len (length s) s (le_n _))
    as Hn.
  by rewrite H, adjacent_dots_app in Hn.
Qed.

Lemma remove_dotdot_subset_len (n : nat) (s : js_string) x :
  (length s ≤ n)%nat → x ∈ remove_dotdot s → x ∈ s.
Proof.
  revert s. induction n as [|n IH]; intros s Hn.
  - by destruct s; [|simpl in Hn; lia].
  - destruct s as [|a [|b rest]]; [done..|].
    rewrite remove_dotdot_cons2. simpl in Hn.
    destruct (N.eqb a dot && N.eqb b dot).
    + intros Hx. rewrite !elem_of_cons. right. right. apply IH; [lia|done].
    + intros [->|Hx]%elem_of_cons; [by apply elem_of_cons; left|].
      apply elem_of_cons. right. apply IH; [simpl; lia|done].
Qed.

Lemma remove_dotdot_subset s x : x ∈ remove_dotdot s → x ∈ s.
Proof. apply (remove_dotdot_subset_len (length s)). done. Qed.

Lemma remove_dotdot_dotless s : dot ∉ s → remove_dotdot s = s.
Proof.
  induction s as [|a s IH]; [done|]. intros Hd.
  apply not_elem_of_cons in Hd as [Ha Hs].
  destruct s as [|b rest]; [done|].
  rewrite remove_dotdot_cons2.
  assert (N.eqb a dot = false) as -> by (by apply N.eqb_neq).
  simpl. f_equal. by apply IH.
Qed.

Lemma remove_unit_absent c s : c ∉ s → remove_unit c s = s.
Proof.
  induction s as [|a s IH]; [done|]. intros Hc.
  apply not_elem_of_cons in Hc as [Ha Hs]. simpl.
  assert (N.eqb a c = false) as -> by (apply N.eqb_neq; congruence).
  simpl. f_equal. by apply IH.
Qed.

Lemma replace_unsafe_word s :
  Forall (λ c, word_unit c = true) (replace_unsafe s).
Proof.
  induction s as [|a s IH]; constructor; [|done].
  by destruct (word_unit a) eqn:Ha.
Qed.

Lemma replace_unsafe_id s :
  Forall (λ c, word_unit c = true) s → replace_unsafe s = s.
Proof.
  induction 1 as [|a s Ha _ IH]; [done|]. simpl. rewrite Ha. f_equal.
  exact IH.
Qed.

Lemma replace_unsafe_fixed s :
  replace_unsafe s = s → Forall (λ c, word_unit c = true) s.
Proof. intros <-. apply replace_unsafe_word. Qed.

Lemma word_not_elem s c :
  word_unit c = false → Forall (λ c, word_unit c = true) s → c ∉ s.
Proof.
  intros Hc Hs Hin. rewrite Forall_forall in Hs.
  specialize (Hs c Hin). congruence.
Qed.

Lemma sanitizeUserId_id s :
  Forall (λ c, word_unit c = true) s → sanitizeUserId s = s.
Proof.
  intros Hs. unfold sanitizeUserId.
  rewrite remove_dotdot_dotless by (by apply word_not_elem).
  rewrite (remove_unit_absent slash) by (by apply word_not_elem).
  rewrite (remove_unit_absent backslash) by (by apply word_not_elem).
  by apply replace_unsafe_id.
Qed.
End PathFacts.

(** X25.  The file name that [UserStorage] joins to a user's directory contains
    no slash, no backslash and no two dots in a row: it can name neither a
    parent directory nor anything below a subdirectory.  (It can be empty
    or a single dot.) *)
Theorem sanitizeFilename_component filename :
  (Paths.slash ∉ Paths.sanitizeFilename filename) ∧
  (Paths.backslash ∉ Paths.sanitizeFilename filename) ∧
  ∀ a b,
    Paths.sanitizeFilename filename ≠ a ++ Paths.dot :: Paths.dot :: b.
Proof.
  unfold Paths.sanitizeFilename.
  assert (∀ c, c = Paths.slash ∨ c = Paths.backslash →
               c ∉ Paths.replace_separators filename) as Hsep.
  { intros c Hc Hin. unfold Paths.replace_separators in Hin.
    apply list_elem_of_fmap in Hin as (x & Hx & _).
    destruct (N.eqb x Paths.slash || N.eqb x Paths.backslash) eqn:E.
    - by destruct Hc; subst c.
    - subst x. apply orb_false_iff in E as [E1 E2].
      apply N.eqb_neq in E1, E2. by destruct Hc. }
  split_and!.
  - intros H%remove_dotdot_subset. by apply (Hsep Paths.slash); [left|].
  - intros H%remove_dotdot_subset. by apply (Hsep Paths.backslash); [right|].
  - intros a b. apply remove_dotdot_no_dotdot.
Qed.

(** X26.  [SandboxManager]: the sanitised user id consists of letters, digits,
    [_] and [-] only, sanitising it again changes nothing, and so the
    directory that [getSandboxForUser] has the sandbox create, whose path
    is computed from the id sanitised twice, is the directory that
    [getUserWorkspacePath] reports for the user; the sandbox id and the
    command contain nothing of the user id but such units. *)
Theorem sanitizeUserId_workspace userId :
  Forall (λ c, Paths.word_unit c = true) (Paths.sanitizeUserId userId) ∧
  Paths.sanitizeUserId (Paths.sanitizeUserId userId)
  = Paths.sanitizeUserId userId ∧
  Paths.exec_command (Paths.getSandboxForUser userId)
  = Paths.units "mkdir -p " ++ Paths.getUserWorkspacePath userId ∧
  Paths.sandbox_id (Paths.getSandboxForUser userId)
  = Paths.units "opencode-" ++ Paths.sanitizeUserId userId.
Proof.
  assert (Forall (λ c, Paths.word_unit c = true)
            (Paths.sanitizeUserId userId)) as Hw
    by apply replace_unsafe_word.
  assert (Paths.sanitizeUserId (Paths.sanitizeUserId userId)
          = Paths.sanitizeUserId userId) as Hid
    by (by apply sanitizeUserId_id).
  split_and!; [done..| |done].
  unfold Paths.getSandboxForUser, Paths.getUserWorkspacePath. simpl.
  by rewrite Hid.
Qed.

(** X27.  A user id with any other unit in it does not have a directory of its
    own: [getUserDir] gives the same directory for a different id, the one
    with each such unit replaced by [_].  The same holds of the path of a
    file in it. *)
Theorem getUserDir_shared join baseDir userId :
  Exists (λ c, Paths.word_unit c = false) userId →
  ∃ other,
    other ≠ userId ∧
    length other = length userId ∧
    Paths.getUserDir join baseDir other = Paths.getUserDir join baseDir userId ∧
    ∀ filename,
      Paths.filePath join baseDir other filename
      = Paths.filePath join baseDir userId filename.
Proof.
  intros Hex. exists (Paths.replace_unsafe userId).
  assert (Paths.replace_unsafe (Paths.replace_unsafe userId)
          = Paths.replace_unsafe userId) as Hid
    by apply replace_unsafe_id, replace_unsafe_word.
  split_and!.
  - intros Heq. apply replace_unsafe_fixed in Heq.
    apply Exists_exists in Hex as (c & Hc & Hw).
    rewrite Forall_forall in Heq. specialize (Heq c Hc). congruence.
  - apply length_map.
  - unfold Paths.getUserDir. simpl. by rewrite Hid.
  - intros filename. unfold Paths.filePath, Paths.getUserDir. simpl.
    by rewrite Hid.
Qed.

Lemma getUserDir_shared_witness :
  ∃ other,
    other ≠ Paths.units "user@1" ∧
    length other = length (Paths.units "user@1") ∧
    Paths.getUserDir sample_join (Paths.units "/data") other
    = Paths.getUserDir sample_join (Paths.units "/data")
        (Paths.units "user@1") ∧
    ∀ filename,
      Paths.filePath sample_join (Paths.units "/data") other filename
      = Paths.filePath sample_join (Paths.units "/data")
          (Paths.units "user@1") filename.
Proof.
  apply (getUserDir_shared sample_join (Paths.units "/data")
           (Paths.units "user@1")).
  vm_compute. do 4 apply Exists_cons_tl. by apply Exists_cons_hd.
Defined.

(** ** The session routes of [ApiApp] *)

(** X28.  [DELETE /sessions/:id] answers 204 with an empty body whether or not
    anything was deleted.  Afterwards the same user gets 404 for that id,
    and every other request, by another user or for another id, is
    answered as before: only the owner's request deletes. *)
Theorem ApiApp_delete_session u sid st :
  let out := ApiApp.delete_session u sid st in
  fst out = ApiApp.mkResponse 204 ApiApp.NullBody ∧
  ApiApp.status (ApiApp.get_session u sid (snd out)) = 404%Z ∧
  ∀ v sid', v ≠ u ∨ sid' ≠ sid →
    ApiApp.get_session v sid' (snd out) = ApiApp.get_session v sid' st.
Proof.
  unfold ApiApp.delete_session, SessionManager.deleteSession,
    ApiApp.get_session, SessionManager.getSession.
  destruct (JsMap.get sid (SessionManager.sessions st)) as [s|] eqn:Hs.
  - destruct (String.eqb (userId s) u) eqn:Hu; simpl.
    + apply String.eqb_eq in Hu. rewrite JsMap_get_delete_eq.
      split_and!; [done..|]. intros v sid' Hne.
      destruct (decide (sid' = sid)) as [->|Hsid].
      * rewrite JsMap_get_delete_eq, Hs.
        destruct Hne as [Hv|]; [|done].
        assert (String.eqb (userId s) v = false) as ->; [|done].
        apply String.eqb_neq. congruence.
      * by rewrite JsMap_get_delete_ne.
    + by rewrite Hs, Hu.
  - simpl. by rewrite Hs.
Qed.

(** X29.  [POST /sessions] answers 201 with a session of the caller.  Afterwards
    the caller gets that session back with status 200, any other user gets
    404 for its id, and requests for other ids are answered as before. *)
Theorem ApiApp_post_session now u st :
  let out := ApiApp.post_session now u st in
  ∃ s,
    fst out = ApiApp.mkResponse 201 (ApiApp.SessionBody s) ∧
    userId s = u ∧ createdAt s = now ∧
    ApiApp.get_session u (id s) (snd out)
    = ApiApp.mkResponse 200 (ApiApp.SessionBody s) ∧
    (∀ v, v ≠ u →
       ApiApp.get_session v (id s) (snd out)
       = ApiApp.mkResponse 404 (ApiApp.ErrorBody "Session not found")) ∧
    (∀ v sid', sid' ≠ id s →
       ApiApp.get_session v sid' (snd out) = ApiApp.get_session v sid' st).
Proof.
  unfold ApiApp.post_session, SessionManager.createSession. simpl.
  eexists. split; [reflexivity|]. simpl.
  unfold ApiApp.get_session, SessionManager.getSession. simpl.
  split_and!; [done..| | |].
  - by rewrite JsMap_get_set_eq, String.eqb_refl.
  - intros v Hv. rewrite JsMap_get_set_eq. simpl.
    assert (String.eqb u v = false) as ->; [|done].
    apply String.eqb_neq. congruence.
  - intros v sid' Hne. by rewrite JsMap_get_set_ne.
Qed.

(** ** The SDK-backed [OpenCodeService] *)

(** X30.  [createSession] stores the new session under the id the SDK gives,
    whatever was stored there.  When that id is the id of a session of
    another user, the session is replaced: its owner no longer has it and
    is refused by [sendPrompt] before the SDK is reached, the caller has a
    session with that id, and the number of stored sessions does not
    grow. *)
Theorem sdk_createSession_replaces sdk i now u v model old st :
  OpenCodeSdkService.sdk_id sdk = Some i →
  i ≠ "" →
  OpenCodeSdkService.getSession i v st = Some old →
  v ≠ u →
  let out := OpenCodeSdkService.createSession (Ok sdk) now u model st in
  ∃ s,
    fst out = Ok s ∧
    OpenCodeSdkService.id s = i ∧ OpenCodeSdkService.userId s = u ∧
    OpenCodeSdkService.getSession i u (snd out) = Some s ∧
    OpenCodeSdkService.getSession i v (snd out) = None ∧
    (∀ answer prompt,
       OpenCodeSdkService.sendPrompt answer i v prompt (snd out)
       = (Throw (JsError "Session not found or access denied"), snd out)) ∧
    length (OpenCodeSdkService.sessions (snd out))
    = length (OpenCodeSdkService.sessions st).
Proof.
  intros Hid Hi Hold Hvu. unfold OpenCodeSdkService.createSession.
  rewrite Hid. simpl.
  assert (Js.truthy i = true) as -> by (by destruct i).
  eexists. split; [reflexivity|]. simpl.
  unfold OpenCodeSdkService.getSession, OpenCodeSdkService.sendPrompt. simpl.
  rewrite JsMap_get_set_eq. simpl. rewrite String.eqb_refl.
  assert (String.eqb u v = false) as ->
    by (apply String.eqb_neq; congruence).
  split_and!; [done..|].
  unfold OpenCodeSdkService.getSession in Hold.
  destruct (JsMap.get i (OpenCodeSdkService.sessions st)) as [o|] eqn:Hget;
    [|done].
  clear Hold. revert Hget.
  generalize (OpenCodeSdkService.sessions st). intros m.
  induction m as [|[k x] m IH]; simpl; [done|].
  destruct (String.eqb k i); simpl; [done|].
  intros H. by rewrite IH.
Qed.

Lemma sdk_createSession_replaces_witness :
  let st :=
    snd (OpenCodeSdkService.createSession
           (Ok (OpenCodeSdkService.mkSdkSession (Some "s-1") None))
           1000 "user-1" None OpenCodeSdkService.init) in
  let out :=
    OpenCodeSdkService.createSession
      (Ok (OpenCodeSdkService.mkSdkSession (Some "s-1") None))
      2000 "user-2" None st in
  ∃ s,
    fst out = Ok s ∧
    OpenCodeSdkService.id s = "s-1" ∧ OpenCodeSdkService.userId s = "user-2" ∧
    OpenCodeSdkService.getSession "s-1" "user-2" (snd out) = Some s ∧
    OpenCodeSdkService.getSession "s-1" "user-1" (snd out) = None ∧
    (∀ answer prompt,
       OpenCodeSdkService.sendPrompt answer "s-1" "user-1" prompt (snd out)
       = (Throw (JsError "Session not found or access denied"), snd out)) ∧
    length (OpenCodeSdkService.sessions (snd out))
    = length (OpenCodeSdkService.sessions st).
Proof.
  intros st.
  apply (sdk_createSession_replaces
           (OpenCodeSdkService.mkSdkSession (Some "s-1") None) "s-1" 2000
           "user-2" "user-1" None
           (OpenCodeSdkService.mkOpenCodeSession "s-1" "user-1" "gpt-4o" 1000)
           st); [reflexivity | done | vm_compute; reflexivity | done].
Defined.
